(** * CameraSkill: a verification development for the Mycroft camera skill

    The skill (src/__init__.py) is a plugin of a voice-assistant host.  It
    keeps a handful of attributes on [self], and everything else it does is
    a call into the host runtime (speech, logging, registration), the GUI
    bridge, the libcec binding, [os] or [time.sleep].

    The embedding is shallow: every method of [CameraSkill] is a Rocq
    function in the monad [M], which threads the attributes of [self],
    records every interaction with the outside world as an [event], and
    propagates Python exceptions.  The answers of the outside world come
    from an oracle ([World]) that may depend on the whole history. *)

From stdpp Require Import base gmap strings list fin_maps.

Open Scope Z_scope.

(** ** Python values *)

(** The dynamically typed values that flow through the handlers: message
    data, configured URLs and the [idle] argument. *)
Inductive pyval : Type :=
| PNone
| PBool (b : bool)
| PInt (n : Z)
| PStr (s : string).

#[global] Instance pyval_eq_dec : EqDecision pyval.
Proof. solve_decision. Defined.

(** [bool(v)] as [if v:] and [not v] compute it. *)
Definition truthy (v : pyval) : bool :=
  match v with
  | PNone => false
  | PBool b => b
  | PInt n => negb (n =? 0)%Z
  | PStr s => negb (String.eqb s "")
  end.

(** [v is True]: identity with the singleton [True]. *)
Definition is_True (v : pyval) : bool :=
  match v with
  | PBool true => true
  | _ => false
  end.

(** [v == "lit"] for a string literal. *)
Definition eq_str (v : pyval) (lit : string) : bool :=
  match v with
  | PStr s => String.eqb s lit
  | _ => false
  end.

(** [message.data]: a dict with string keys. *)
Record message : Type := Message { data : gmap string pyval }.

(** [d.get(k)] and [d.get(k, dflt)] for a string-literal key. *)
Definition dict_get (d : gmap string pyval) (k : string) (dflt : pyval) : pyval :=
  default dflt (d !! k).

(** [self.cams.get(key, None)] where [key] is an arbitrary value; the
    configured keys are strings, so no other value matches a key. *)
Definition cams_get (cams : gmap string pyval) (key : pyval) : pyval :=
  match key with
  | PStr k => default PNone (cams !! k)
  | _ => PNone
  end.

(** ** Exceptions *)

Inductive exn : Type :=
| AttributeError (attr : string)
| TypeError (msg : string)
| ValueError (msg : string)
| NativeError (msg : string).

Inductive res (A : Type) : Type :=
| Ok (a : A)
| Err (e : exn).
Arguments Ok {A} a.
Arguments Err {A} e.

(** ** The outside world *)

(** Constants of the [cec] module that the skill names. *)
Inductive cec_device_type : Type :=
| CEC_DEVICE_TYPE_RECORDING_DEVICE
| CEC_DEVICE_TYPE_RESERVED.

Inductive cec_version : Type :=
| LIBCEC_VERSION_CURRENT.

(** The fields of [cec.libcec_configuration] that [setup_cec] fills in. *)
Record libcec_configuration : Type := {
  strDeviceName : string;
  bActivateSource : Z;
  deviceTypes : list cec_device_type;
  clientVersion : cec_version
}.

(** An adapter descriptor as returned by [DetectAdapters]. *)
Record adapter : Type := {
  strComName : string;
  iVendorId : Z;
  iProductId : Z
}.

(** Calls that answer with a value or raise: the GUI bridge, the libcec
    binding, [os] and [time.sleep]. *)
Inductive call : Type :=
(* self.gui *)
| GuiSet (key : string) (v : pyval)
| GuiShowPage (page : string) (override_idle override_animations : bool)
| GuiShowUrl (url : pyval) (override_idle : pyval)
| GuiRemovePage (page : string)
| GuiRelease
(* cec *)
| LibcecConfiguration
| DeviceTypesAdd (ty : cec_device_type)
| Create (cfg : libcec_configuration)
| DetectAdapters
| Open (port : string)
| GetActiveDevices
| IsSet (x : Z)
| GetDeviceVendorId (x : Z)
| GetDeviceCecVersion (x : Z)
| GetDevicePowerStatus (x : Z)
| LogicalAddressToString (x : Z)
| GetDevicePhysicalAddress (x : Z)
| IsActiveSource (x : Z)
| VendorIdToString (vendor : Z)
| CecVersionToString (version : Z)
| GetDeviceOSDName (x : Z)
| PowerStatusToString (power : Z)
| SetActiveSource (ty : cec_device_type)
| StandbyDevices (x : Z)
(* os, time *)
| OsExpandUser (path : string)
| OsIsDir (path : string)
| OsMakedirs (path : string)
| Sleep (secs : Z).

(** The type of the value a call returns. *)
Definition ret (c : call) : Type :=
  match c with
  | GuiSet _ _ | GuiShowPage _ _ _ | GuiShowUrl _ _ | GuiRemovePage _
  | GuiRelease => unit
  | LibcecConfiguration | DeviceTypesAdd _ | Create _ => unit
  | DetectAdapters => list adapter
  | Open _ => bool
  | GetActiveDevices => unit
  | IsSet _ => bool
  | GetDeviceVendorId _ | GetDeviceCecVersion _ | GetDevicePowerStatus _ => Z
  | LogicalAddressToString _ => string
  | GetDevicePhysicalAddress _ => Z
  | IsActiveSource _ => bool
  | VendorIdToString _ | CecVersionToString _ | GetDeviceOSDName _
  | PowerStatusToString _ => string
  | SetActiveSource _ | StandbyDevices _ => bool
  | OsExpandUser _ => string
  | OsIsDir _ => bool
  | OsMakedirs _ => unit
  | Sleep _ => unit
  end.

Inductive loglevel : Type := Debug | Info | Warning | Error.

(** The bound methods that [initialize] registers as callbacks. *)
Inductive handler : Type :=
| Hhandle_camera_status
| Hhandle_camera_completed
| Hhandle_stream.

(** What the skill does to the outside world, in order.  Speech, logging
    and registration are services of the host that the model records as
    outputs; a [call] is recorded with its outcome. *)
Inductive event : Type :=
| EvSpeak (dialog : string) (dialog_data : list (string * pyval))
| EvLog (lvl : loglevel) (fmt : string) (args : list pyval)
| EvGuiRegisterHandler (name : string) (h : handler)
| EvBusOn (name : string) (h : handler)
| EvRegisterVocabulary (word : string) (concept : string)
| EvCall (c : call) (r : exn + ret c).

(** The oracle: given the history so far, the outcome of a call. *)
Definition World : Type := list event → ∀ c : call, exn + ret c.

(** ** The attributes of [self] *)

(** [__init__] assigns [camera_mode], [cams] and [save_folder]; the other
    four are assigned later, and reading one before that is an
    [AttributeError]. *)
Record skill : Type := Skill {
  camera_mode : pyval;
  cams : gmap string pyval;
  save_folder : string;
  remote : option unit;
  display : option bool;
  display_id : option Z;
  display_status : option string
}.

Definition set_remote (s : skill) : skill :=
  Skill (camera_mode s) (cams s) (save_folder s) (Some ()) (display s)
        (display_id s) (display_status s).

Definition set_display (b : bool) (s : skill) : skill :=
  Skill (camera_mode s) (cams s) (save_folder s) (remote s) (Some b)
        (display_id s) (display_status s).

Definition set_display_id (n : Z) (s : skill) : skill :=
  Skill (camera_mode s) (cams s) (save_folder s) (remote s) (display s)
        (Some n) (display_status s).

Definition set_display_status (st : string) (s : skill) : skill :=
  Skill (camera_mode s) (cams s) (save_folder s) (remote s) (display s)
        (display_id s) (Some st).

(** ** The monad *)

(** What a computation leaves behind: a value or an exception, the
    attributes of [self], and the events it emitted. *)
Record outcome (A : Type) : Type := Out {
  result : res A;
  final : skill;
  events : list event
}.
Arguments Out {A} result final events.
Arguments result {A} o.
Arguments final {A} o.
Arguments events {A} o.

Definition prepend {A : Type} (ev : list event) (o : outcome A) : outcome A :=
  Out (result o) (final o) (ev ++ events o).

(** A computation reads the oracle and the history and may change [self].
    Assignments made before an exception stay. *)
Definition M (A : Type) : Type :=
  World → list event → skill → outcome A.

#[global] Instance M_ret : MRet M :=
  λ A a _ _ s, Out (Ok a) s [].

#[global] Instance M_bind : MBind M :=
  λ A B f x w past s,
    let o := x w past s in
    match result o with
    | Ok a => prepend (events o) (f a w (past ++ events o) (final o))
    | Err e => Out (Err e) (final o) (events o)
    end.

Definition raise {A : Type} (e : exn) : M A :=
  λ _ _ s, Out (Err e) s [].

Definition emit (e : event) : M unit :=
  λ _ _ s, Out (Ok ()) s [e].

Definition do_call (c : call) : M (ret c) :=
  λ w past s,
    match w past c with
    | inl e => Out (Err e) s [EvCall c (inl e)]
    | inr v => Out (Ok v) s [EvCall c (inr v)]
    end.

(** [self.attr] for an attribute that may not have been assigned. *)
Definition get_attr {A : Type} (proj : skill → option A) (attr : string) : M A :=
  λ _ _ s,
    match proj s with
    | Some a => Out (Ok a) s []
    | None => Out (Err (AttributeError attr)) s []
    end.

(** [self.attr] for an attribute assigned by [__init__]. *)
Definition get_init {A : Type} (proj : skill → A) : M A :=
  λ _ _ s, Out (Ok (proj s)) s [].

Definition assign (f : skill → skill) : M unit :=
  λ _ _ s, Out (Ok ()) (f s) [].

(** [for x in l: body(x)] *)
Fixpoint foreach {A : Type} (l : list A) (body : A → M unit) : M unit :=
  match l with
  | [] => mret ()
  | x :: l' => body x ;; foreach l' body
  end.

Definition speak_dialog (dialog : string) (dialog_data : list (string * pyval)) : M unit :=
  emit (EvSpeak dialog dialog_data).

Definition log (lvl : loglevel) (fmt : string) (args : list pyval) : M unit :=
  emit (EvLog lvl fmt args).

(** [self.remote.method(...)]: [self.remote] is read first. *)
Definition remote_call (c : call) : M (ret c) :=
  get_attr remote "remote" ;; do_call c.

(** ** The methods of [CameraSkill] *)

(** [config_core.get("cams", {})]: the host configuration, of which the
    skill reads the section [cams]. *)
Definition config_get_cams (config_core : gmap string (gmap string pyval)) : gmap string pyval :=
  default ∅ (config_core !! "cams").

(** [__init__]: the attributes it assigns, and the directory it creates.
    The object exists only if no call raised. *)
Definition __init__ (config_core : gmap string (gmap string pyval)) : World → list event → res skill * list event :=
  λ w past,
    let body : M skill :=
      folder ← do_call (OsExpandUser "~/Pictures");
      isdir ← do_call (OsIsDir folder);
      (if negb isdir then do_call (OsMakedirs folder) else mret ());;
      mret (Skill PNone (config_get_cams config_core) folder None None None None) in
    let o := body w past (Skill PNone ∅ "" None None None None) in
    (result o, events o).

Definition cecconfig : libcec_configuration :=
  {| strDeviceName := "MycroftCEC";
     bActivateSource := 0;
     deviceTypes := [CEC_DEVICE_TYPE_RECORDING_DEVICE];
     clientVersion := LIBCEC_VERSION_CURRENT |}.

(** The body of [for x in range(0, 16)] in [setup_cec]. *)
Definition log_device (x : Z) : M unit :=
  isset ← do_call (IsSet x);
  if (isset : bool) then
    vendorId ← remote_call (GetDeviceVendorId x);
    cecVersion ← remote_call (GetDeviceCecVersion x);
    power ← remote_call (GetDevicePowerStatus x);
    name ← remote_call (LogicalAddressToString x);
    log Debug "device #{x}: {}" [PInt x; PStr name];;
    address ← remote_call (GetDevicePhysicalAddress x);
    log Debug "address: {}" [PInt address];;
    active ← remote_call (IsActiveSource x);
    log Debug "active source: {}" [PBool active];;
    vendor ← remote_call (VendorIdToString vendorId);
    log Debug "vendor: {}" [PStr vendor];;
    version ← remote_call (CecVersionToString cecVersion);
    log Debug "CEC version: {}" [PStr version];;
    osd ← remote_call (GetDeviceOSDName x);
    log Debug "OSD name: {}" [PStr osd];;
    status ← remote_call (PowerStatusToString power);
    log Debug "power status: {}" [PStr status]
  else mret ().

Definition setup_cec : M unit :=
  do_call LibcecConfiguration;;
  do_call (DeviceTypesAdd CEC_DEVICE_TYPE_RECORDING_DEVICE);;
  (* Create, Detect, and Open adapter *)
  do_call (Create cecconfig);;
  assign set_remote;;
  adapters ← remote_call DetectAdapters;
  foreach (imap (λ i a, (i, a)) adapters) (λ ia,
    log Debug "CEC adapter {i+1} port:{} vendor: {hex} product: {hex} "
      [PInt (Z.of_nat ia.1 + 1); PStr (strComName ia.2);
       PInt (iVendorId ia.2); PInt (iProductId ia.2)]);;
  match adapters with
  | [] =>
      log Warning "could not find any CEC adapters!" [];;
      speak_dialog "display.not.available" [];;
      assign (set_display false)
  | first :: _ =>
      log Debug "found %d CEC adapters, attempting to open first adapter..."
        [PInt (Z.of_nat (length adapters))];;
      assign (set_display true);;
      opened ← remote_call (Open (strComName first));
      (if (opened : bool) then log Info "CEC adapter opened" []
       else log Error "unable to open CEC adapter!" []);;
      remote_call GetActiveDevices;;
      foreach (seqZ 0 16) log_device;;
      assign (set_display_id 0) (* 0 = 'TV' *)
  end.

Definition initialize : M unit :=
  (* Register Camera GUI Events *)
  emit (EvGuiRegisterHandler "CameraSkill.ViewPortStatus" Hhandle_camera_status);;
  emit (EvGuiRegisterHandler "CameraSkill.EndProcess" Hhandle_camera_completed);;
  (* Register Bus Events *)
  emit (EvBusOn "skill.camera.showcam" Hhandle_stream);;
  (* register cam names for adapt; visited in the key order of the map,
     where the dict is visited in insertion order *)
  names ← get_init cams;
  foreach (map_to_list names).*1 (λ word,
    emit (EvRegisterVocabulary word "location"));;
  setup_cec.

(** Perform camera action: ["generic"] opens the camera app,
    ["singleshot"] takes a single photo. *)
Definition handle_camera_activity (activity : string) : M unit :=
  folder ← get_init save_folder;
  do_call (GuiSet "save_path" (PStr folder));;
  (if String.eqb activity "singleshot"
   then do_call (GuiSet "singleshot_mode" (PBool true)) else mret ());;
  (if String.eqb activity "generic"
   then do_call (GuiSet "singleshot_mode" (PBool false)) else mret ());;
  do_call (GuiShowPage "Camera.qml" true true).

(** Take a single photo using the attached camera. *)
Definition take_single_photo : M unit :=
  handle_camera_activity "singleshot".

(** Open the camera live view mode. *)
Definition open_camera_app : M unit :=
  handle_camera_activity "generic".

(** Take a picture. *)
Definition handle_capture_single_shot (_ : message) : M unit :=
  speak_dialog "acknowledge" [];;
  do_call (GuiSet "singleshot_mode" (PBool false));;
  take_single_photo.

(** Open the Camera GUI providing a live view of the camera. *)
Definition handle_open_camera (_ : message) : M unit :=
  speak_dialog "acknowledge" [];;
  do_call (GuiSet "singleshot_mode" (PBool false));;
  handle_camera_activity "generic".

(** Close the Camera GUI when finished. *)
Definition handle_camera_completed : M unit :=
  do_call (GuiRemovePage "Camera.qml");;
  do_call GuiRelease;;
  status ← get_attr display_status "display_status";
  log Debug "{}" [PStr status];;
  status ← get_attr display_status "display_status";
  if String.eqb status "standby" then
    get_attr remote "remote";;
    id ← get_attr display_id "display_id";
    x ← do_call (StandbyDevices id);
    log Debug "Switched to standby: {}" [PBool x]
  else mret ().

(** Handle Camera GUI status changes. *)
Definition handle_camera_status (msg : message) : M unit :=
  let current_status := dict_get (data msg) "status" PNone in
  (if eq_str current_status "generic"
   then do_call (GuiSet "singleshot_mode" (PBool false)) else mret ());;
  (if eq_str current_status "imagetaken"
   then do_call (GuiSet "singleshot_mode" (PBool false)) else mret ());;
  (if eq_str current_status "singleshot"
   then do_call (GuiSet "singleshot_mode" (PBool true)) else mret ()).

(** [idle - 2] *)
Definition minus_2 (idle : pyval) : M Z :=
  match idle with
  | PInt n => mret (n - 2)
  | PBool b => mret ((if b then 1 else 0) - 2)
  | PNone => raise (TypeError "unsupported operand type(s) for -: 'NoneType' and 'int'")
  | PStr _ => raise (TypeError "unsupported operand type(s) for -: 'str' and 'int'")
  end.

(** [time.sleep(secs)]: a negative length is refused before sleeping. *)
Definition sleep (secs : Z) : M unit :=
  if secs <? 0 then raise (ValueError "sleep length must be non-negative")
  else do_call (Sleep secs).

Definition show_stream (cam_url idle : pyval) : M unit :=
  (* determine if we have to have to standby the disp afterwards *)
  get_attr remote "remote";;
  id ← get_attr display_id "display_id";
  _display_status_code ← do_call (GetDevicePowerStatus id);
  status ← remote_call (PowerStatusToString _display_status_code);
  assign (set_display_status status);;
  status ← get_attr display_status "display_status";
  log Debug "Display Status: {}" [PStr status];;
  (* make it the active source *)
  active ← remote_call (SetActiveSource CEC_DEVICE_TYPE_RESERVED);
  (if (active : bool) then do_call (GuiShowUrl cam_url idle) else mret ());;
  if negb (is_True idle) then
    secs ← minus_2 idle;
    sleep secs;;
    handle_camera_completed
  else mret ().

Definition handle_get_stream (msg : message) : M unit :=
  available ← get_attr display "display";
  if (available : bool) then
    let cam_name := dict_get (data msg) "location" PNone in
    log Debug "Cam Name: {}" [cam_name];;
    let idle := if truthy (dict_get (data msg) "view.short" (PBool false))
                then PInt 60 else PBool true in
    log Debug "Idle: {}" [idle];;
    if negb (truthy cam_name) then
      speak_dialog "stream.not_specified" []
    else
      names ← get_init cams;
      let cam_url := cams_get names cam_name in
      if negb (truthy cam_url) then
        speak_dialog "stream.no_config" [("cam", cam_name)]
      else
        show_stream cam_url idle
  else
    speak_dialog "display.not.available" [].

(** Stream called based on a bus message (the message utterance value
    must equal to the cam url key). *)
Definition handle_stream (msg : message) (idle : pyval) : M unit :=
  let cam_name := dict_get (data msg) "utterance" PNone in
  names ← get_init cams;
  let cam_url := cams_get names cam_name in
  show_stream cam_url idle.

(** The default of [handle_stream]'s second parameter; the bus calls the
    handler with the message only. *)
Definition handle_stream_default_idle : pyval := PInt 60.

(** Respond to system stop command. *)
Definition stop : M unit :=
  handle_camera_completed.

(** ** The operations the host can invoke on a constructed skill *)

Inductive operation : Type :=
| Initialize
| SetupCec
| HandleCaptureSingleShot (msg : message)
| HandleOpenCamera (msg : message)
| HandleCameraCompleted
| HandleCameraStatus (msg : message)
| TakeSinglePhoto
| OpenCameraApp
| HandleCameraActivity (activity : string)
| HandleGetStream (msg : message)
| HandleStream (msg : message) (idle : pyval)
| ShowStream (cam_url idle : pyval)
| Stop.

Definition run (op : operation) : M unit :=
  match op with
  | Initialize => initialize
  | SetupCec => setup_cec
  | HandleCaptureSingleShot msg => handle_capture_single_shot msg
  | HandleOpenCamera msg => handle_open_camera msg
  | HandleCameraCompleted => handle_camera_completed
  | HandleCameraStatus msg => handle_camera_status msg
  | TakeSinglePhoto => take_single_photo
  | OpenCameraApp => open_camera_app
  | HandleCameraActivity activity => handle_camera_activity activity
  | HandleGetStream msg => handle_get_stream msg
  | HandleStream msg idle => handle_stream msg idle
  | ShowStream cam_url idle => show_stream cam_url idle
  | Stop => stop
  end.

(** ** Observing a run *)

(** The exception a recorded call raised, if it raised. *)
Definition raised (e : event) : option exn :=
  match e with
  | EvCall _ (inl x) => Some x
  | _ => None
  end.

Definition is_gui_call (c : call) : bool :=
  match c with
  | GuiSet _ _ | GuiShowPage _ _ _ | GuiShowUrl _ _ | GuiRemovePage _
  | GuiRelease => true
  | _ => false
  end.

Definition is_cec_call (c : call) : bool :=
  match c with
  | LibcecConfiguration | DeviceTypesAdd _ | Create _ | DetectAdapters
  | Open _ | GetActiveDevices | IsSet _ | GetDeviceVendorId _
  | GetDeviceCecVersion _ | GetDevicePowerStatus _
  | LogicalAddressToString _ | GetDevicePhysicalAddress _
  | IsActiveSource _ | VendorIdToString _ | CecVersionToString _
  | GetDeviceOSDName _ | PowerStatusToString _ | SetActiveSource _
  | StandbyDevices _ => true
  | _ => false
  end.

(** The event is a call into the GUI bridge or into libcec. *)
Definition gui_or_cec (e : event) : bool :=
  match e with
  | EvCall c _ => is_gui_call c || is_cec_call c
  | _ => false
  end.

Definition is_sleep (e : event) : bool :=
  match e with
  | EvCall (Sleep _) _ => true
  | _ => false
  end.

Definition is_remove_page (e : event) : bool :=
  match e with
  | EvCall (GuiRemovePage _) _ => true
  | _ => false
  end.

Definition is_standby (e : event) : bool :=
  match e with
  | EvCall (StandbyDevices _) _ => true
  | _ => false
  end.

Definition is_speak (e : event) : bool :=
  match e with
  | EvSpeak _ _ => true
  | _ => false
  end.

(** The dialogs spoken, in order. *)
Fixpoint spoken (ev : list event) : list string :=
  match ev with
  | [] => []
  | EvSpeak dialog _ :: ev' => dialog :: spoken ev'
  | _ :: ev' => spoken ev'
  end.

(** The spoken dialogs that report a failure: every dialog of the skill
    but the acknowledgement of a camera request. *)
Definition fallbacks (ev : list event) : list string :=
  filter (λ dialog, dialog ≠ "acknowledge") (spoken ev).

(** What [DetectAdapters] returned, if it was called and returned. *)
Fixpoint detected (ev : list event) : option (list adapter) :=
  match ev with
  | [] => None
  | EvCall DetectAdapters (inr adapters) :: _ => Some adapters
  | _ :: ev' => detected ev'
  end.

(** A call recorded with the value it returned. *)
Definition returns (c : call) (v : ret c) : event := EvCall c (inr v).

(** [answers w past script]: from the history [past] on, the oracle
    answers each call of [script] with the outcome recorded there. *)
Fixpoint answers (w : World) (past script : list event) : Prop :=
  match script with
  | [] => True
  | e :: script' =>
      match e with
      | EvCall c r => w past c = r
      | _ => True
      end ∧ answers w (past ++ [e]) script'
  end.

(** ** Sample worlds and skills *)

Definition default_ret (c : call) : ret c :=
  match c with
  | GuiSet _ _ | GuiShowPage _ _ _ | GuiShowUrl _ _ | GuiRemovePage _
  | GuiRelease => ()
  | LibcecConfiguration | DeviceTypesAdd _ | Create _ => ()
  | DetectAdapters => []
  | Open _ => true
  | GetActiveDevices => ()
  | IsSet _ => false
  | GetDeviceVendorId _ | GetDeviceCecVersion _ | GetDevicePowerStatus _ => 0
  | LogicalAddressToString _ => "TV"
  | GetDevicePhysicalAddress _ => 0
  | IsActiveSource _ => false
  | VendorIdToString _ | CecVersionToString _ | GetDeviceOSDName _ => "unknown"
  | PowerStatusToString _ => "on"
  | SetActiveSource _ | StandbyDevices _ => true
  | OsExpandUser _ => "/home/mycroft/Pictures"
  | OsIsDir _ => true
  | OsMakedirs _ => ()
  | Sleep _ => ()
  end.

(** No adapter is plugged in; every call returns. *)
Definition no_adapter_world : World :=
  λ _ c, inr (default_ret c).

(** One adapter; the television reports [status] and the device at
    logical address 0 is present. *)
Definition tv_world (status : string) : World :=
  λ _ c,
    match c as c0 return exn + ret c0 with
    | DetectAdapters => inr [ {| strComName := "/dev/cec0"; iVendorId := 0x2708; iProductId := 0x1001 |} ]
    | IsSet x => inr (x =? 0)
    | PowerStatusToString _ => inr status
    | c0 => inr (default_ret c0)
    end.

(** As [tv_world], but the GUI bridge fails to remove a page. *)
Definition broken_gui_world : World :=
  λ past c,
    match c as c0 return exn + ret c0 with
    | GuiRemovePage _ => inl (NativeError "gui bridge down")
    | c0 => tv_world "on" past c0
    end.

Definition front_door : gmap string pyval :=
  {[ "front door" := PStr "rtsp://door.local/stream" ]}.

(** A skill as [__init__] leaves it. *)
Definition constructed (names : gmap string pyval) : skill :=
  Skill PNone names "/home/mycroft/Pictures" None None None None.

(** A skill whose setup found an adapter. *)
Definition ready (names : gmap string pyval) : skill :=
  Skill PNone names "/home/mycroft/Pictures" (Some ()) (Some true) (Some 0) None.

(** A skill whose setup found no adapter. *)
Definition displayless (names : gmap string pyval) : skill :=
  Skill PNone names "/home/mycroft/Pictures" (Some ()) (Some false) None None.

Definition say (location : string) : message :=
  Message {[ "location" := PStr location; "view" := PStr "show" ]}.

Definition say_short (location : string) : message :=
  Message {[ "location" := PStr location; "view.short" := PStr "glance" ]}.

Definition bus_message (utterance : string) : message :=
  Message {[ "utterance" := PStr utterance ]}.

(** ** Properties of computations that compose along [≫=] *)

(** Every run relates the attributes before and after by [R], and emits
    only events that satisfy [E]. *)
Definition respects {A : Type} (R : skill → skill → Prop) (E : event → Prop) (x : M A) : Prop :=
  ∀ w past s, R s (final (x w past s)) ∧ Forall E (events (x w past s)).

(** The events up to the last one are calls that returned or host
    outputs; an exception is either the one the last call raised, or
    raised by the skill's own code after calls that all returned. *)
Definition propagated {A : Type} (o : outcome A) : Prop :=
  match result o with
  | Ok _ => Forall (λ x, raised x = None) (events o)
  | Err e =>
      Forall (λ x, raised x = None) (events o) ∨
      ∃ ev0 x, events o = ev0 ++ [x] ∧
               Forall (λ x, raised x = None) ev0 ∧ raised x = Some e
  end.

Definition propagates {A : Type} (x : M A) : Prop :=
  ∀ w past s, propagated (x w past s).

(** Every attribute that is assigned after [__init__] has been assigned:
    setup found an adapter, and a stream has been shown. *)
Definition configured (s : skill) : Prop :=
  is_Some (remote s) ∧ is_Some (display s) ∧ is_Some (display_id s) ∧
  is_Some (display_status s).

(** The values of [idle] the skill itself passes to [show_stream]:
    [True], or a number of seconds that leaves a sleep of non-negative
    length ([handle_get_stream] and the default of [handle_stream] pass
    60). *)
Definition well_timed (idle : pyval) : Prop :=
  idle = PBool true ∨ ∃ n : Z, idle = PInt n ∧ 2 ≤ n.

Definition host_invoked (op : operation) : Prop :=
  match op with
  | HandleStream _ idle | ShowStream _ idle => well_timed idle
  | _ => True
  end.

(** The run completed after calls that all returned, or it ended with
    the exception its last call raised. *)
Definition reraised {A : Type} (o : outcome A) : Prop :=
  match result o with
  | Ok _ => Forall (λ x, raised x = None) (events o)
  | Err e =>
      ∃ ev0 x, events o = ev0 ++ [x] ∧
               Forall (λ x, raised x = None) ev0 ∧ raised x = Some e
  end.

(** From a configured skill, every run is [reraised] and leaves the
    skill configured. *)
Definition reraises {A : Type} (x : M A) : Prop :=
  ∀ w past s,
    configured s → configured (final (x w past s)) ∧ reraised (x w past s).

Definition same_cams (s s' : skill) : Prop := cams s' = cams s.
Definition same_display (s s' : skill) : Prop := display s' = display s.
Definition same_status (s s' : skill) : Prop := display_status s' = display_status s.
Definition any_change (s s' : skill) : Prop := True.

Definition same_id (s s' : skill) : Prop := display_id s' = display_id s.

Definition any_event (e : event) : Prop := True.

(** Neither a sleep nor the removal of a page. *)
Definition stays_open (e : event) : Prop :=
  is_sleep e = false ∧ is_remove_page e = false.

(** The operations that reach [show_stream], and those that reach
    [setup_cec]. *)
Definition shows_stream (op : operation) : bool :=
  match op with
  | HandleGetStream _ | HandleStream _ _ | ShowStream _ _ => true
  | _ => false
  end.

Definition sets_up (op : operation) : bool :=
  match op with
  | Initialize | SetupCec => true
  | _ => false
  end.

(** The events of a stream that [show_stream] shows: the power status is
    queried and named, the skill makes itself the active source, and if
    that succeeded the GUI is asked to show the URL. *)
Definition shown (id code : Z) (status : string) (active : bool) (cam_url idle : pyval) : list event :=
  [returns (GetDevicePowerStatus id) code;
   returns (PowerStatusToString code) status;
   EvLog Debug "Display Status: {}" [PStr status];
   returns (SetActiveSource CEC_DEVICE_TYPE_RESERVED) active]
  ++ (if active then [returns (GuiShowUrl cam_url idle) ()] else []).

(** The two GUI calls every [handle_camera_completed] starts with. *)
Definition closed : list event :=
  [returns (GuiRemovePage "Camera.qml") (); returns GuiRelease ()].
Definition silent (e : event) : Prop := is_speak e = false.

(** The four dialogs the skill can speak. *)
Definition dialogs : list string :=
  ["acknowledge"; "display.not.available"; "stream.not_specified";
   "stream.no_config"].

Definition speaks_known (e : event) : Prop :=
  match e with
  | EvSpeak dialog _ => dialog ∈ dialogs
  | _ => True
  end.

(** ** Observers for the camera, setup and stream paths *)

(** The directories [os.makedirs] was asked to create. *)
Definition made_dir (e : event) : option string :=
  match e with
  | EvCall (OsMakedirs path) _ => Some path
  | _ => None
  end.

(** The answers of [os.path.isdir]: the path and what was returned. *)
Definition checked_dir (e : event) : option (string * bool) :=
  match e with
  | EvCall (OsIsDir path) (inr isdir) => Some (path, isdir)
  | _ => None
  end.

(** The values written to the GUI session variable [key], by the writes
    that returned. *)
Definition gui_write (key : string) (e : event) : option pyval :=
  match e with
  | EvCall (GuiSet k v) (inr _) => if String.eqb k key then Some v else None
  | _ => None
  end.

(** The value the GUI session variable [key] holds after the events. *)
Definition gui_value (key : string) (ev : list event) : option pyval :=
  last (omap (gui_write key) ev).

(** The logical addresses asked of [IsSet], those it reported present,
    and those whose vendor id was queried. *)
Definition probed (e : event) : option Z :=
  match e with
  | EvCall (IsSet x) _ => Some x
  | _ => None
  end.

Definition present (e : event) : option Z :=
  match e with
  | EvCall (IsSet x) (inr true) => Some x
  | _ => None
  end.

Definition detailed (e : event) : option Z :=
  match e with
  | EvCall (GetDeviceVendorId x) _ => Some x
  | _ => None
  end.

(** The ports [Open] was called with. *)
Definition opened (e : event) : option string :=
  match e with
  | EvCall (Open port) _ => Some port
  | _ => None
  end.

(** The vocabulary registered: word and concept. *)
Definition vocabulary (e : event) : option (string * string) :=
  match e with
  | EvRegisterVocabulary word concept => Some (word, concept)
  | _ => None
  end.

(** The arguments of the [show_url] calls: URL and [override_idle]. *)
Definition shown_url (e : event) : option (pyval * pyval) :=
  match e with
  | EvCall (GuiShowUrl url idle) _ => Some (url, idle)
  | _ => None
  end.

(** [SetActiveSource] returned true. *)
Definition became_active (e : event) : bool :=
  match e with
  | EvCall (SetActiveSource _) (inr true) => true
  | _ => false
  end.

(** The event belongs to the camera GUI: a call into the GUI bridge, the
    acknowledgement, or a log line. *)
Definition gui_only (e : event) : Prop :=
  match e with
  | EvCall c _ => is_gui_call c = true
  | EvSpeak dialog _ => dialog = "acknowledge"
  | EvLog _ _ _ => True
  | _ => False
  end.

(** The operations of the camera app, as opposed to the streams. *)
Definition camera_op (op : operation) : bool :=
  match op with
  | HandleCaptureSingleShot _ | HandleOpenCamera _ | HandleCameraStatus _
  | TakeSinglePhoto | OpenCameraApp | HandleCameraActivity _ => true
  | _ => false
  end.

(** The single-shot mode an operation asks the camera app for. *)
Definition requested_mode (op : operation) : option bool :=
  match op with
  | HandleCaptureSingleShot _ | TakeSinglePhoto => Some true
  | HandleOpenCamera _ | OpenCameraApp => Some false
  | _ => None
  end.

(** Worlds in which the GUI bridge, respectively the libcec binding,
    never raises. *)
Definition gui_answers (w : World) : Prop :=
  ∀ past c, is_gui_call c = true → ∃ v, w past c = inr v.

Definition cec_answers (w : World) : Prop :=
  ∀ past c, is_cec_call c = true → ∃ v, w past c = inr v.

(** No pictures folder yet; otherwise as [no_adapter_world]. *)
Definition fresh_home_world : World :=
  λ _ c,
    match c as c0 return exn + ret c0 with
    | OsIsDir _ => inr false
    | c0 => inr (default_ret c0)
    end.

(** As [tv_world], but the adapter cannot be opened. *)
Definition stubborn_adapter_world : World :=
  λ past c,
    match c as c0 return exn + ret c0 with
    | Open _ => inr false
    | c0 => tv_world "on" past c0
    end.

(** The logical addresses [StandbyDevices] was called with. *)
Definition standby_of (e : event) : option Z :=
  match e with
  | EvCall (StandbyDevices x) _ => Some x
  | _ => None
  end.

(** The view is left alone: no sleep, no removal of a page, no standby. *)
Definition left_alone (e : event) : Prop :=
  is_sleep e = false ∧ is_remove_page e = false ∧ is_standby e = false.

(** What [os.path.expanduser] returned: the path given and its
    expansion. *)
Definition expanded_user (e : event) : option (string * string) :=
  match e with
  | EvCall (OsExpandUser path) (inr folder) => Some (path, folder)
  | _ => None
  end.

(** The operations that hold a spoken-fallback guard: setup (reached
    from initialize too) and the stream intent. *)
Definition guarded (op : operation) : bool :=
  match op with
  | Initialize | SetupCec | HandleGetStream _ => true
  | _ => false
  end.

(** If the event is speech, it is the acknowledgement. *)
Definition only_acknowledges (e : event) : Prop :=
  match e with
  | EvSpeak dialog _ => dialog = "acknowledge"
  | _ => True
  end.

(** The event is not a call. *)
Definition host_output (e : event) : Prop :=
  match e with
  | EvCall _ _ => False
  | _ => True
  end.

(** ** Running a computation step by step *)

Lemma prepend_nil {A : Type} (o : outcome A) : prepend [] o = o.
Proof. by destruct o. Qed.

Lemma prepend_prepend {A : Type} (ev1 ev2 : list event) (o : outcome A) :
  prepend ev1 (prepend ev2 o) = prepend (ev1 ++ ev2) o.
Proof. unfold prepend; cbn. by rewrite app_assoc. Qed.

Lemma bind_ret {A B : Type} (a : A) (f : A → M B) w past s :
  (mret a ≫= f) w past s = f a w past s.
Proof.
  unfold mbind, M_bind, mret, M_ret; cbn.
  by rewrite app_nil_r, prepend_nil.
Qed.

Lemma bind_raise {A B : Type} (e : exn) (f : A → M B) w past s :
  (raise e ≫= f) w past s = Out (Err e) s [].
Proof. reflexivity. Qed.

Lemma bind_emit {B : Type} (e : event) (f : unit → M B) w past s :
  (emit e ≫= f) w past s = prepend [e] (f () w (past ++ [e]) s).
Proof. reflexivity. Qed.

Lemma bind_call {B : Type} (c : call) (f : ret c → M B) w past s :
  (do_call c ≫= f) w past s =
    match w past c with
    | inl e => Out (Err e) s [EvCall c (inl e)]
    | inr v => prepend [EvCall c (inr v)] (f v w (past ++ [EvCall c (inr v)]) s)
    end.
Proof. unfold mbind, M_bind, do_call. by destruct (w past c). Qed.

Lemma bind_get_attr {A B : Type} (proj : skill → option A) attr (f : A → M B) w past s :
  (get_attr proj attr ≫= f) w past s =
    match proj s with
    | Some a => f a w past s
    | None => Out (Err (AttributeError attr)) s []
    end.
Proof.
  unfold mbind, M_bind, get_attr. destruct (proj s); cbn; [|done].
  by rewrite app_nil_r, prepend_nil.
Qed.

Lemma bind_get_init {A B : Type} (proj : skill → A) (f : A → M B) w past s :
  (get_init proj ≫= f) w past s = f (proj s) w past s.
Proof.
  unfold mbind, M_bind, get_init; cbn. by rewrite app_nil_r, prepend_nil.
Qed.

Lemma bind_assign {B : Type} (g : skill → skill) (f : unit → M B) w past s :
  (assign g ≫= f) w past s = f () w past (g s).
Proof.
  unfold mbind, M_bind, assign; cbn. by rewrite app_nil_r, prepend_nil.
Qed.

Lemma bind_assoc {A B C : Type} (x : M A) (g : A → M B) (f : B → M C) w past s :
  ((x ≫= g) ≫= f) w past s = (x ≫= (λ a, g a ≫= f)) w past s.
Proof.
  unfold mbind, M_bind; cbn.
  destruct (result (x w past s)) as [a|e]; cbn; [|done].
  destruct (result (g a w _ _)); cbn; [|done].
  by rewrite prepend_prepend, app_assoc.
Qed.

Lemma bind_id {A : Type} (x : M A) w past s :
  (x ≫= mret) w past s = x w past s.
Proof.
  unfold mbind, M_bind, mret, M_ret, prepend; cbn.
  destruct (x w past s) as [[a|e] s' ev]; cbn; [|done].
  by rewrite app_nil_r.
Qed.

(** One step of a run: reassociate, then execute the first statement. *)
Ltac step :=
  first
    [ rewrite bind_assoc
    | rewrite bind_ret
    | rewrite bind_emit
    | rewrite bind_get_init
    | rewrite bind_assign
    | rewrite bind_raise
    | rewrite bind_get_attr
    | match goal with
      | |- context [mbind _ (do_call ?c)] => rewrite (bind_call c)
      end ].

Ltac last_step :=
  first [ rewrite <- (bind_id (emit _))
        | rewrite <- (bind_id (do_call _))
        | rewrite <- (bind_id (assign _))
        | rewrite <- (bind_id (raise _))
        | rewrite <- (bind_id (get_attr _ _)) ].

(** ** The composition lemmas *)

Section Respects.
Context (R : skill → skill → Prop) (E : event → Prop) `{!PreOrder R}.

Lemma respects_ret {A : Type} (a : A) : respects R E (mret a).
Proof. intros w past s. split; [reflexivity|constructor]. Qed.

Lemma respects_raise {A : Type} (e : exn) : respects R E (@raise A e).
Proof. intros w past s. split; [reflexivity|constructor]. Qed.

Lemma respects_emit (e : event) : E e → respects R E (emit e).
Proof. intros He w past s. split; [reflexivity|by repeat constructor]. Qed.

Lemma respects_call (c : call) : (∀ r, E (EvCall c r)) → respects R E (do_call c).
Proof.
  intros He w past s. unfold do_call.
  destruct (w past c); (split; [reflexivity|by repeat constructor]).
Qed.

Lemma respects_get_attr {A : Type} (proj : skill → option A) attr :
  respects R E (get_attr proj attr).
Proof.
  intros w past s. unfold get_attr.
  destruct (proj s); (split; [reflexivity|constructor]).
Qed.

Lemma respects_get_init {A : Type} (proj : skill → A) :
  respects R E (get_init proj).
Proof. intros w past s. split; [reflexivity|constructor]. Qed.

Lemma respects_assign (g : skill → skill) :
  (∀ s, R s (g s)) → respects R E (assign g).
Proof. intros Hg w past s. split; [apply Hg|constructor]. Qed.

Lemma respects_bind {A B : Type} (x : M A) (f : A → M B) :
  respects R E x → (∀ a, respects R E (f a)) → respects R E (x ≫= f).
Proof.
  intros Hx Hf w past s. unfold mbind, M_bind; cbn.
  destruct (Hx w past s) as [HR HE].
  destruct (result (x w past s)) as [a|e]; cbn; [|done].
  destruct (Hf a w (past ++ events (x w past s)) (final (x w past s))) as [HR' HE'].
  split; [by etrans|by apply Forall_app].
Qed.

Lemma respects_foreach {A : Type} (l : list A) (body : A → M unit) :
  (∀ a, respects R E (body a)) → respects R E (foreach l body).
Proof.
  intros Hb. induction l as [|a l IH]; cbn.
  - apply respects_ret.
  - apply respects_bind; [apply Hb|intros _; apply IH].
Qed.
End Respects.

Lemma propagates_ret {A : Type} (a : A) : propagates (mret a).
Proof. intros w past s. constructor. Qed.

Lemma propagates_raise {A : Type} (e : exn) : propagates (@raise A e).
Proof. intros w past s. left. constructor. Qed.

Lemma propagates_emit (e : event) : raised e = None → propagates (emit e).
Proof. intros He w past s. by repeat constructor. Qed.

Lemma propagates_call (c : call) : propagates (do_call c).
Proof.
  intros w past s. unfold do_call, propagated.
  destruct (w past c) as [e|v]; cbn.
  - right. exists [], (EvCall c (inl e)). by repeat split.
  - by repeat constructor.
Qed.

Lemma propagates_get_attr {A : Type} (proj : skill → option A) attr :
  propagates (get_attr proj attr).
Proof.
  intros w past s. unfold get_attr, propagated.
  destruct (proj s); cbn; [constructor|left; constructor].
Qed.

Lemma propagates_get_init {A : Type} (proj : skill → A) :
  propagates (get_init proj).
Proof. intros w past s. constructor. Qed.

Lemma propagates_assign (g : skill → skill) : propagates (assign g).
Proof. intros w past s. constructor. Qed.

Lemma propagates_bind {A B : Type} (x : M A) (f : A → M B) :
  propagates x → (∀ a, propagates (f a)) → propagates (x ≫= f).
Proof.
  intros Hx Hf w past s. specialize (Hx w past s).
  unfold propagated, mbind, M_bind in *; cbn.
  destruct (result (x w past s)) as [a|e]; cbn; [|done].
  specialize (Hf a w (past ++ events (x w past s)) (final (x w past s))).
  unfold propagated in Hf.
  destruct (result (f a w _ _)) as [b|e]; cbn.
  - by apply Forall_app.
  - destruct Hf as [Hq|(ev0 & y & Hev & Hq & Hy)].
    + left. by apply Forall_app.
    + right. exists (events (x w past s) ++ ev0), y.
      rewrite Hev, app_assoc. repeat split; [|done]. by apply Forall_app.
Qed.

Lemma propagates_foreach {A : Type} (l : list A) (body : A → M unit) :
  (∀ a, propagates (body a)) → propagates (foreach l body).
Proof.
  intros Hb. induction l as [|a l IH]; cbn.
  - apply propagates_ret.
  - apply propagates_bind; [apply Hb|intros _; apply IH].
Qed.

#[local] Instance same_cams_preorder : PreOrder same_cams.
Proof. split; [by intros s|intros s1 s2 s3 H12 H23; unfold same_cams in *; congruence]. Qed.

#[local] Instance same_display_preorder : PreOrder same_display.
Proof. split; [by intros s|intros s1 s2 s3 H12 H23; unfold same_display in *; congruence]. Qed.

#[local] Instance same_status_preorder : PreOrder same_status.
Proof. split; [by intros s|intros s1 s2 s3 H12 H23; unfold same_status in *; congruence]. Qed.

#[local] Instance same_id_preorder : PreOrder same_id.
Proof. split; [by intros s|intros s1 s2 s3 H12 H23; unfold same_id in *; congruence]. Qed.

#[local] Instance any_change_preorder : PreOrder any_change.
Proof. by split. Qed.

(** Unfold the methods down to the primitives of the monad. *)
Ltac unfold_methods :=
  unfold run, stop, initialize, setup_cec, log_device, handle_stream,
    handle_get_stream, show_stream, handle_camera_status,
    handle_capture_single_shot, handle_open_camera, take_single_photo,
    open_camera_app, handle_camera_activity, handle_camera_completed,
    sleep, minus_2, remote_call, log, speak_dialog.

(** Decompose a goal [respects R E m] along the structure of [m]. *)
Ltac respects_tac :=
  repeat
    lazymatch goal with
    | |- respects _ _ (mbind _ _) => apply respects_bind; try tc_solve; [|intros ?]
    | |- respects _ _ (mret _) => apply respects_ret; tc_solve
    | |- respects _ _ (raise _) => apply respects_raise; tc_solve
    | |- respects _ _ (emit _) => apply respects_emit; try tc_solve
    | |- respects ?R ?E (do_call ?c) => apply (respects_call R E c); intros ?
    | |- respects _ _ (get_attr _ _) => apply respects_get_attr; tc_solve
    | |- respects _ _ (get_init _) => apply respects_get_init; tc_solve
    | |- respects _ _ (assign _) => apply respects_assign; intros ?
    | |- respects _ _ (foreach _ _) => apply respects_foreach; try tc_solve; intros ?
    | |- respects _ _ (match ?b with _ => _ end) => destruct b
    end.

Ltac propagates_tac :=
  repeat
    lazymatch goal with
    | |- propagates (mbind _ _) => apply propagates_bind; [|intros ?]
    | |- propagates (mret _) => apply propagates_ret
    | |- propagates (raise _) => apply propagates_raise
    | |- propagates (emit _) => apply propagates_emit; reflexivity
    | |- propagates (do_call ?c) => apply (propagates_call c)
    | |- propagates (get_attr _ _) => apply propagates_get_attr
    | |- propagates (get_init _) => apply propagates_get_init
    | |- propagates (assign _) => apply propagates_assign
    | |- propagates (foreach _ _) => apply propagates_foreach; intros ?
    | |- propagates (match ?b with _ => _ end) => destruct b
    end.

(** ** Properties of every operation *)

Lemma run_same_cams (op : operation) : respects same_cams any_event (run op).
Proof. destruct op; unfold_methods; respects_tac; done. Qed.

Lemma run_speaks_known (op : operation) : respects any_change speaks_known (run op).
Proof.
  destruct op; unfold_methods; respects_tac; try done;
    cbn; unfold dialogs; repeat first [by left | right].
Qed.

Lemma run_same_display (op : operation) :
  sets_up op = false → respects same_display any_event (run op).
Proof. destruct op; try done; intros _; unfold_methods; respects_tac; done. Qed.

Lemma run_propagates (op : operation) : propagates (run op).
Proof. destruct op; unfold_methods; propagates_tac. Qed.

Lemma handle_camera_completed_same_status :
  respects same_status any_event handle_camera_completed.
Proof. unfold_methods; respects_tac; done. Qed.

Lemma handle_camera_completed_silent :
  respects any_change silent handle_camera_completed.
Proof. unfold_methods; respects_tac; done. Qed.

Lemma show_stream_silent (cam_url idle : pyval) :
  respects any_change silent (show_stream cam_url idle).
Proof. unfold_methods; respects_tac; done. Qed.

(** ** Small facts about values and observers *)

Ltac simpl_attrs :=
  cbn [remote display display_id display_status cams save_folder camera_mode
       set_remote set_display set_display_id set_display_status].

Ltac steps := repeat (step; cbv beta iota zeta; simpl_attrs).

Lemma truthy_name (k : string) : k ≠ "" → truthy (PStr k) = true.
Proof.
  intros Hk. cbn. destruct (String.eqb_spec k ""); [done|reflexivity].
Qed.

Lemma dict_get_some (d : gmap string pyval) (k : string) (v dflt : pyval) :
  d !! k = Some v → dict_get d k dflt = v.
Proof. unfold dict_get. by intros ->. Qed.

Lemma dict_get_none (d : gmap string pyval) (k : string) (dflt : pyval) :
  d !! k = None → dict_get d k dflt = dflt.
Proof. unfold dict_get. by intros ->. Qed.

Lemma cams_get_none (names : gmap string pyval) (k : string) :
  names !! k = None → cams_get names (PStr k) = PNone.
Proof. unfold cams_get. by intros ->. Qed.

Lemma spoken_app (ev1 ev2 : list event) :
  spoken (ev1 ++ ev2) = spoken ev1 ++ spoken ev2.
Proof.
  induction ev1 as [|e ev1 IH]; [done|].
  destruct e; cbn; by rewrite ?IH.
Qed.

Lemma spoken_silent (ev : list event) : Forall silent ev → spoken ev = [].
Proof.
  induction 1 as [|e ev He _ IH]; [done|].
  destruct e; cbn; try done.
Qed.

Lemma spoken_known (ev : list event) :
  Forall speaks_known ev → Forall (λ dialog, dialog ∈ dialogs) (spoken ev).
Proof.
  induction 1 as [|e ev He _ IH]; [constructor|].
  destruct e; cbn; try done. by constructor.
Qed.

(** A call that raised is the last event of a run that satisfies
    [propagated], and the run ends with that exception. *)
Lemma propagated_raised {A : Type} (o : outcome A) (i : nat) (x : event) (e : exn) :
  propagated o → events o !! i = Some x → raised x = Some e →
  result o = Err e ∧ S i = length (events o).
Proof.
  unfold propagated. intros Hp Hi Hx.
  assert (Hnot : ¬ Forall (λ y, raised y = None) (events o)).
  { intros Hall. rewrite Forall_lookup in Hall.
    specialize (Hall i x Hi). congruence. }
  destruct (result o) as [a|e']; [done|].
  destruct Hp as [Hall|(ev0 & y & Hev & Hq & Hy)]; [done|].
  rewrite Hev in Hi |- *. rewrite length_app; cbn.
  destruct (decide (i < length ev0)%nat) as [Hlt|Hge].
  - rewrite lookup_app_l in Hi by done.
    rewrite Forall_lookup in Hq. specialize (Hq i x Hi). congruence.
  - rewrite lookup_app_r in Hi by lia.
    destruct (i - length ev0)%nat as [|j] eqn:Hj; cbn in Hi; [|done].
    injection Hi as <-. split; [congruence|lia].
Qed.

(** ** Runs of a configured skill *)

Lemma reraises_ret {A : Type} (a : A) : reraises (mret a).
Proof. intros w past s Hs. split; [done|constructor]. Qed.

Lemma reraises_emit (e : event) : raised e = None → reraises (emit e).
Proof. intros He w past s Hs. split; [done|by repeat constructor]. Qed.

Lemma reraises_call (c : call) : reraises (do_call c).
Proof.
  intros w past s Hs. unfold do_call, reraised.
  destruct (w past c) as [e|v]; cbn; (split; [done|]).
  - exists [], (EvCall c (inl e)). by repeat split.
  - by repeat constructor.
Qed.

Lemma reraises_get_attr {A : Type} (proj : skill → option A) attr :
  (∀ s, configured s → is_Some (proj s)) → reraises (get_attr proj attr).
Proof.
  intros Hproj w past s Hs. unfold get_attr, reraised.
  destruct (Hproj s Hs) as [a ->]. cbn. split; [done|constructor].
Qed.

Lemma reraises_get_init {A : Type} (proj : skill → A) : reraises (get_init proj).
Proof. intros w past s Hs. split; [done|constructor]. Qed.

Lemma reraises_assign (g : skill → skill) :
  (∀ s, configured s → configured (g s)) → reraises (assign g).
Proof. intros Hg w past s Hs. split; [by apply Hg|constructor]. Qed.

Lemma reraises_bind {A B : Type} (x : M A) (f : A → M B) :
  reraises x → (∀ a, reraises (f a)) → reraises (x ≫= f).
Proof.
  intros Hx Hf w past s Hs. destruct (Hx w past s Hs) as [Hs1 Hr1].
  unfold reraised, mbind, M_bind in *; cbn.
  destruct (result (x w past s)) as [a|e]; cbn; [|done].
  destruct (Hf a w (past ++ events (x w past s)) (final (x w past s)) Hs1)
    as [Hs2 Hr2].
  split; [done|]. unfold reraised in Hr2.
  destruct (result (f a w _ _)) as [b|e]; cbn.
  - by apply Forall_app.
  - destruct Hr2 as (ev0 & y & Hev & Hq & Hy).
    exists (events (x w past s) ++ ev0), y.
    rewrite Hev, app_assoc. repeat split; [|done]. by apply Forall_app.
Qed.

Lemma reraises_bind_ret {A B : Type} (a : A) (f : A → M B) :
  reraises (f a) → reraises (mret a ≫= f).
Proof. intros Hf w past s Hs. rewrite bind_ret. by apply Hf. Qed.

Lemma reraises_foreach {A : Type} (l : list A) (body : A → M unit) :
  (∀ a, reraises (body a)) → reraises (foreach l body).
Proof.
  intros Hb. induction l as [|a l IH]; cbn.
  - apply reraises_ret.
  - apply reraises_bind; [apply Hb|intros _; apply IH].
Qed.

Ltac reraises_tac :=
  repeat
    lazymatch goal with
    | |- reraises (mbind _ (mret _)) => apply reraises_bind_ret; cbv beta
    | H : (?x <? 0) = false |- reraises (mbind _ (if ?x <? 0 then _ else _)) =>
        rewrite H
    | |- reraises (mbind _ _) => apply reraises_bind; [|intros ?]
    | |- reraises (mret _) => apply reraises_ret
    | |- reraises (emit _) => apply reraises_emit; reflexivity
    | |- reraises (do_call ?c) => apply (reraises_call c)
    | |- reraises (get_attr _ _) =>
        apply reraises_get_attr; unfold configured; intros ?; tauto
    | |- reraises (get_init _) => apply reraises_get_init
    | |- reraises (assign _) =>
        apply reraises_assign; intros ? (? & ? & ? & ?);
        unfold configured; cbn; split_and!; by eauto
    | |- reraises (foreach _ _) => apply reraises_foreach; intros ?
    | |- reraises (match ?b with _ => _ end) => destruct b
    end.

Lemma handle_camera_completed_reraises : reraises handle_camera_completed.
Proof. unfold_methods. reraises_tac. Qed.

Lemma show_stream_reraises (cam_url idle : pyval) :
  well_timed idle → reraises (show_stream cam_url idle).
Proof.
  intros [->|(n & -> & Hn)]; unfold show_stream, remote_call, log;
    cbn [is_True negb minus_2].
  - reraises_tac.
  - unfold sleep, handle_camera_completed, log.
    assert ((n - 2 <? 0) = false) as Hlt by lia.
    reraises_tac.
Qed.

Lemma handle_get_stream_reraises (msg : message) : reraises (handle_get_stream msg).
Proof.
  unfold handle_get_stream, log, speak_dialog.
  apply reraises_bind; [reraises_tac|intros available].
  destruct available; [|reraises_tac].
  repeat (apply reraises_bind; [reraises_tac|intros ?]).
  destruct (negb (truthy _)); [reraises_tac|].
  apply reraises_bind; [reraises_tac|intros names].
  destruct (negb (truthy _)); [reraises_tac|].
  apply show_stream_reraises.
  destruct (truthy _); [right; exists 60; split; [done|lia]|by left].
Qed.

Lemma handle_stream_reraises (msg : message) (idle : pyval) :
  well_timed idle → reraises (handle_stream msg idle).
Proof.
  intros Hidle. unfold handle_stream.
  apply reraises_bind; [reraises_tac|intros names].
  by apply show_stream_reraises.
Qed.

Lemma run_reraises (op : operation) : host_invoked op → reraises (run op).
Proof.
  destruct op; intros Hop; cbn [run].
  - unfold_methods. reraises_tac.
  - unfold_methods. reraises_tac.
  - unfold_methods. reraises_tac.
  - unfold_methods. reraises_tac.
  - apply handle_camera_completed_reraises.
  - unfold_methods. reraises_tac.
  - unfold_methods. reraises_tac.
  - unfold_methods. reraises_tac.
  - unfold_methods. reraises_tac.
  - apply handle_get_stream_reraises.
  - by apply handle_stream_reraises.
  - by apply show_stream_reraises.
  - apply handle_camera_completed_reraises.
Qed.

(** ** The claims *)

(** C2: the camera name-to-URL mapping is read-only at runtime: whatever
    operation the host invokes on a constructed skill (initialize, every
    intent handler, the bus handler, show_stream, handle_camera_completed,
    stop), in whatever world and with whatever outcome, [self.cams] is
    afterwards the mapping it was before. *)
Theorem cams_read_only (op : operation) (w : World) (past : list event) (s : skill) :
  cams (final (run op w past s)) = cams s.
Proof. apply (run_same_cams op). Qed.

(** C7: no handler catches errors.  When a GUI bridge call or a libcec
    call (or any other callee) raises during an operation, that call is
    the last thing the operation does (no fallback follows) and the
    operation ends with the callee's exception.  And once the skill is
    configured (setup found an adapter, a stream has been shown), every
    operation the host invokes either completes, all its calls having
    returned, or ends with the exception its last call raised. *)
Theorem errors_propagate (op : operation) (w : World) (past : list event) (s : skill) :
  (∀ (i : nat) (x : event) (e : exn),
     events (run op w past s) !! i = Some x →
     raised x = Some e →
     result (run op w past s) = Err e ∧
     S i = length (events (run op w past s))) ∧
  (configured s → host_invoked op → reraised (run op w past s)).
Proof.
  split.
  - intros i x e. apply propagated_raised, run_propagates.
  - intros Hs Hop. by apply (run_reraises op Hop).
Qed.

Lemma errors_propagate_witness :
  result (run Stop broken_gui_world [] (ready front_door))
    = Err (NativeError "gui bridge down") ∧
  1%nat = length (events (run Stop broken_gui_world [] (ready front_door))) ∧
  reraised (run (HandleStream (bus_message "front door") (PInt 60))
              broken_gui_world []
              (set_display_status "on" (ready front_door))).
Proof.
  destruct (errors_propagate Stop broken_gui_world [] (ready front_door))
    as [Hlast _].
  destruct (errors_propagate (HandleStream (bus_message "front door") (PInt 60))
              broken_gui_world [] (set_display_status "on" (ready front_door)))
    as [_ Hrun].
  destruct (Hlast 0%nat
              (EvCall (GuiRemovePage "Camera.qml") (inl (NativeError "gui bridge down")))
              (NativeError "gui bridge down") eq_refl eq_refl) as [Hres Hlen].
  split_and!; [exact Hres|exact Hlen|].
  apply Hrun.
  - unfold configured; cbn; split_and!; by eexists.
  - right. exists 60. split; [reflexivity|lia].
Defined.

(** C4: a stream request (display available) that names a camera for
    which the mapping holds no URL speaks stream.no_config with that
    camera name and returns: no stream is shown, and no GUI or CEC call is
    issued (the only other events are the two debug log lines). *)
Theorem no_config_fallback (msg : message) (w : World) (past : list event) (s : skill)
    (k : string) :
  display s = Some true →
  data msg !! "location" = Some (PStr k) →
  k ≠ "" →
  cams s !! k = None →
  handle_get_stream msg w past s =
    Out (Ok ()) s
      [EvLog Debug "Cam Name: {}" [PStr k];
       EvLog Debug "Idle: {}"
         [if truthy (dict_get (data msg) "view.short" (PBool false))
          then PInt 60 else PBool true];
       EvSpeak "stream.no_config" [("cam", PStr k)]] ∧
  Forall (λ e, gui_or_cec e = false) (events (handle_get_stream msg w past s)).
Proof.
  intros Hd Hl Hk Hc.
  unfold handle_get_stream, log, speak_dialog.
  rewrite bind_get_attr, Hd. cbv beta iota zeta.
  rewrite (dict_get_some _ _ _ _ Hl).
  steps. rewrite (truthy_name k Hk). cbn [negb]. steps.
  rewrite (cams_get_none _ _ Hc). split; [done|by repeat constructor].
Qed.

Lemma no_config_fallback_witness :
  handle_get_stream (say_short "garage") (tv_world "on") [] (ready front_door) =
    Out (Ok ()) (ready front_door)
      [EvLog Debug "Cam Name: {}" [PStr "garage"];
       EvLog Debug "Idle: {}" [PInt 60];
       EvSpeak "stream.no_config" [("cam", PStr "garage")]].
Proof.
  apply (no_config_fallback (say_short "garage") (tv_world "on") []
           (ready front_door) "garage"); [reflexivity| |done|]; by vm_compute.
Defined.

(** C3: if adapter detection during setup returns the empty list, the
    skill speaks display.not.available (and nothing else) and sets the
    display flag to false; and whenever the flag is false, a stream
    request through handle_get_stream only speaks display.not.available:
    no GUI call, no CEC call, no other event, no change of state. *)
Theorem no_adapter_fallback (w : World) (past : list event) (s : skill) :
  detected (events (setup_cec w past s)) = Some [] →
  result (setup_cec w past s) = Ok () ∧
  display (final (setup_cec w past s)) = Some false ∧
  spoken (events (setup_cec w past s)) = ["display.not.available"] ∧
  (∀ (msg : message) (w' : World) (past' : list event) (s' : skill),
     display s' = Some false →
     handle_get_stream msg w' past' s' =
       Out (Ok ()) s' [EvSpeak "display.not.available" []] ∧
     Forall (λ e, gui_or_cec e = false)
       (events (handle_get_stream msg w' past' s'))) ∧
  (∀ (op : operation) (w' : World) (past' : list event) (s' : skill),
     sets_up op = false →
     display (final (run op w' past' s')) = display s').
Proof.
  unfold setup_cec, remote_call, log, speak_dialog. steps.
  destruct (w past LibcecConfiguration) as [e|u1]; [by intros H; cbn in H|].
  steps.
  destruct (w _ (DeviceTypesAdd _)) as [e|u2]; [by intros H; cbn in H|].
  steps.
  destruct (w _ (Create _)) as [e|u3]; [by intros H; cbn in H|].
  steps.
  destruct (w _ DetectAdapters) as [e|adapters]; [by intros H; cbn in H|].
  intros H. cbn in H. injection H as ->.
  cbn [imap foreach]. steps.
  split_and!; [done..| |].
  - intros msg w' past' s' Hd.
    unfold handle_get_stream, speak_dialog.
    rewrite bind_get_attr, Hd. split; [done|by repeat constructor].
  - intros op w' past' s' Hop. apply (run_same_display op Hop).
Qed.

Lemma no_adapter_fallback_witness :
  detected (events (setup_cec no_adapter_world [] (constructed front_door))) = Some [] ∧
  display (final (setup_cec no_adapter_world [] (constructed front_door))) = Some false ∧
  handle_get_stream (say "front door") no_adapter_world []
      (displayless front_door) =
    Out (Ok ()) (displayless front_door) [EvSpeak "display.not.available" []].
Proof.
  destruct (no_adapter_fallback no_adapter_world [] (constructed front_door) eq_refl)
    as (_ & Hflag & _ & Hstream & _).
  split_and!; [reflexivity|exact Hflag|apply Hstream; reflexivity].
Defined.

(** Run on, using the given rewriting tactic wherever the run waits for
    an attribute or an answer of the oracle. *)
Ltac steps_with tac :=
  repeat (first [step | progress tac]; cbv beta iota zeta; simpl_attrs).

(** Use up the answers of a script, one call after the other. *)
Ltac replay tac :=
  steps_with tac;
  repeat match goal with
         | H : ?w _ _ = _ |- _ => rewrite H; clear H; steps_with tac
         end.

(** With the attributes set by a successful setup and the oracle
    answering, [show_stream] emits [shown] and goes on to the timed
    part. *)
Lemma show_stream_shown (cam_url idle : pyval) (id code : Z) (status : string)
    (active : bool) (w : World) (past : list event) (s : skill) :
  remote s = Some () →
  display_id s = Some id →
  answers w past (shown id code status active cam_url idle) →
  show_stream cam_url idle w past s =
    prepend (shown id code status active cam_url idle)
      ((if negb (is_True idle)
        then secs ← minus_2 idle; sleep secs;; handle_camera_completed
        else mret ())
         w (past ++ shown id code status active cam_url idle)
         (set_display_status status s)).
Proof.
  intros Hr Hid Ha. unfold shown, returns in *.
  unfold show_stream, remote_call, log.
  destruct active; cbn [answers app] in Ha; destruct_and!;
    replay ltac:(rewrite ?Hr, ?Hid);
    by rewrite !prepend_prepend, <- !app_assoc.
Qed.

Lemma answers_app (w : World) (past script1 script2 : list event) :
  answers w past (script1 ++ script2) ↔
  answers w past script1 ∧ answers w (past ++ script1) script2.
Proof.
  revert past. induction script1 as [|e script1 IH]; intros past; cbn.
  - rewrite app_nil_r. tauto.
  - rewrite IH, <- app_assoc. cbn. tauto.
Qed.

(** A timed view: after [shown], the skill sleeps [n - 2] seconds and
    then runs [handle_camera_completed]. *)
Lemma show_stream_timed (cam_url : pyval) (n id code : Z) (status : string)
    (active : bool) (w : World) (past : list event) (s : skill) :
  remote s = Some () →
  display_id s = Some id →
  2 ≤ n →
  answers w past (shown id code status active cam_url (PInt n)
                    ++ [returns (Sleep (n - 2)) ()]) →
  show_stream cam_url (PInt n) w past s =
    prepend (shown id code status active cam_url (PInt n)
               ++ [returns (Sleep (n - 2)) ()])
      (handle_camera_completed
         w (past ++ shown id code status active cam_url (PInt n)
                 ++ [returns (Sleep (n - 2)) ()])
         (set_display_status status s)).
Proof.
  intros Hr Hid Hn [Ha Hs]%answers_app.
  rewrite (show_stream_shown _ _ _ _ _ _ _ _ _ Hr Hid Ha).
  cbn [is_True negb minus_2]. steps. unfold sleep.
  assert ((n - 2 <? 0) = false) as -> by lia.
  cbn [answers] in Hs. destruct Hs as [Hs _]. unfold returns in *.
  steps. rewrite Hs.
  by rewrite !prepend_prepend, <- !app_assoc.
Qed.

(** [handle_camera_completed] always starts by asking the GUI to remove
    the page Camera.qml. *)
Lemma handle_camera_completed_head (w : World) (past : list event) (s : skill) :
  head (events (handle_camera_completed w past s)) =
    Some (EvCall (GuiRemovePage "Camera.qml") (w past (GuiRemovePage "Camera.qml"))).
Proof.
  unfold handle_camera_completed. steps.
  by destruct (w past (GuiRemovePage "Camera.qml")).
Qed.

Lemma show_stream_indefinite_stays_open (cam_url : pyval) :
  respects any_change stays_open (show_stream cam_url (PBool true)).
Proof.
  unfold show_stream, remote_call, log. cbn [is_True negb].
  respects_tac; done.
Qed.

(** C5: a timed view (numeric idle, as handle_get_stream passes 60 for
    view.short): once the stream is shown, show_stream sleeps idle - 2
    seconds and then runs handle_camera_completed, whose first act is to
    remove the page Camera.qml.  An indefinite view (idle is True): no
    sleep and no removal of a page, in any world. *)
Theorem timed_view_sleeps_then_closes (cam_url : pyval) (n id code : Z)
    (status : string) (active : bool) (w : World) (past : list event) (s : skill) :
  remote s = Some () →
  display_id s = Some id →
  2 ≤ n →
  answers w past (shown id code status active cam_url (PInt n)
                    ++ [returns (Sleep (n - 2)) ()]) →
  (show_stream cam_url (PInt n) w past s =
     prepend (shown id code status active cam_url (PInt n)
                ++ [returns (Sleep (n - 2)) ()])
       (handle_camera_completed
          w (past ++ shown id code status active cam_url (PInt n)
                  ++ [returns (Sleep (n - 2)) ()])
          (set_display_status status s))) ∧
  (∀ (w' : World) (past' : list event) (s' : skill),
     head (events (handle_camera_completed w' past' s')) =
       Some (EvCall (GuiRemovePage "Camera.qml")
               (w' past' (GuiRemovePage "Camera.qml")))) ∧
  (∀ (w' : World) (past' : list event) (s' : skill),
     Forall stays_open (events (show_stream cam_url (PBool true) w' past' s'))).
Proof.
  intros Hr Hid Hn Ha. split_and!.
  - by apply show_stream_timed.
  - apply handle_camera_completed_head.
  - intros w' past' s'. apply show_stream_indefinite_stays_open.
Qed.

Lemma timed_view_sleeps_then_closes_witness :
  events (show_stream (PStr "rtsp://door.local/stream") (PInt 60)
            (tv_world "standby") [] (ready front_door)) =
    shown 0 0 "standby" true (PStr "rtsp://door.local/stream") (PInt 60)
    ++ [returns (Sleep 58) ()]
    ++ events (handle_camera_completed (tv_world "standby")
                 (shown 0 0 "standby" true (PStr "rtsp://door.local/stream") (PInt 60)
                  ++ [returns (Sleep 58) ()])
                 (set_display_status "standby" (ready front_door))).
Proof.
  destruct (timed_view_sleeps_then_closes (PStr "rtsp://door.local/stream")
              60 0 0 "standby" true (tv_world "standby") [] (ready front_door))
    as (Hrun & _ & _); [reflexivity|reflexivity|lia|by vm_compute|].
  rewrite Hrun. reflexivity.
Defined.

Lemma cams_get_some (names : gmap string pyval) (k : string) (url : pyval) :
  names !! k = Some url → cams_get names (PStr k) = url.
Proof. unfold cams_get. by intros ->. Qed.

(** [initialize] subscribes to the bus event before anything can fail. *)
Lemma initialize_subscribes (w : World) (past : list event) (s : skill) :
  events (initialize w past s) !! 2%nat =
    Some (EvBusOn "skill.camera.showcam" Hhandle_stream).
Proof. unfold initialize. steps. by rewrite !prepend_prepend. Qed.

(** [handle_stream] is [show_stream] at the URL the mapping holds for the
    utterance. *)
Lemma handle_stream_show_stream (msg : message) (idle : pyval) (w : World)
    (past : list event) (s : skill) :
  handle_stream msg idle w past s =
    show_stream (cams_get (cams s) (dict_get (data msg) "utterance" PNone)) idle
      w past s.
Proof. unfold handle_stream. by steps. Qed.

(** C6: initialize subscribes handle_stream to the bus event
    skill.camera.showcam; the handler's idle defaults to 60; it looks the
    utterance up in the mapping and shows that URL: GetDevicePowerStatus,
    PowerStatusToString, SetActiveSource and, if SetActiveSource
    succeeded, show_url with the URL and idle 60; then the timed part
    (sleep 58, handle_camera_completed). *)
Theorem bus_event_shows_stream (msg : message) (k : string) (url : pyval)
    (id code : Z) (status : string) (active : bool)
    (w : World) (past : list event) (s : skill) :
  data msg !! "utterance" = Some (PStr k) →
  cams s !! k = Some url →
  remote s = Some () →
  display_id s = Some id →
  answers w past (shown id code status active url (PInt 60)
                    ++ [returns (Sleep 58) ()]) →
  (∀ (w0 : World) (past0 : list event) (s0 : skill),
     events (initialize w0 past0 s0) !! 2%nat =
       Some (EvBusOn "skill.camera.showcam" Hhandle_stream)) ∧
  handle_stream_default_idle = PInt 60 ∧
  handle_stream msg handle_stream_default_idle w past s =
    prepend (shown id code status active url (PInt 60)
               ++ [returns (Sleep 58) ()])
      (handle_camera_completed
         w (past ++ shown id code status active url (PInt 60)
                 ++ [returns (Sleep 58) ()])
         (set_display_status status s)).
Proof.
  intros Hu Hk Hr Hid Ha. split_and!.
  - apply initialize_subscribes.
  - reflexivity.
  - rewrite handle_stream_show_stream, (dict_get_some _ _ _ _ Hu).
    rewrite (cams_get_some _ _ _ Hk). unfold handle_stream_default_idle.
    by apply (show_stream_timed url 60).
Qed.

Lemma bus_event_shows_stream_witness :
  events (handle_stream (bus_message "front door") handle_stream_default_idle
            (tv_world "on") [] (ready front_door)) =
    [returns (GetDevicePowerStatus 0) 0;
     returns (PowerStatusToString 0) "on";
     EvLog Debug "Display Status: {}" [PStr "on"];
     returns (SetActiveSource CEC_DEVICE_TYPE_RESERVED) true;
     returns (GuiShowUrl (PStr "rtsp://door.local/stream") (PInt 60)) ();
     returns (Sleep 58) ();
     returns (GuiRemovePage "Camera.qml") ();
     returns GuiRelease ();
     EvLog Debug "{}" [PStr "on"]].
Proof.
  destruct (bus_event_shows_stream (bus_message "front door") "front door"
              (PStr "rtsp://door.local/stream") 0 0 "on" true
              (tv_world "on") [] (ready front_door))
    as (_ & _ & Hrun); [by vm_compute..|].
  rewrite Hrun. reflexivity.
Defined.

(** Run both sides of an equation, branching where the run branches. *)
Ltac run_cases :=
  unfold_methods;
  repeat (steps;
          try match goal with
              | |- context [match ?x with _ => _ end] => destruct x
              end).

(** [show_stream] never reads the display flag. *)
Lemma show_stream_ignores_display (cam_url idle : pyval) (b : bool)
    (w : World) (past : list event) (s : skill) :
  result (show_stream cam_url idle w past (set_display b s)) =
    result (show_stream cam_url idle w past s) ∧
  events (show_stream cam_url idle w past (set_display b s)) =
    events (show_stream cam_url idle w past s).
Proof. run_cases; done. Qed.

(** C8 as stated fails: after a setup that found no adapter, display_id
    is unset, and a bus event whose utterance matches no camera makes
    handle_stream raise AttributeError before any call: neither
    GetDevicePowerStatus nor SetActiveSource is issued. *)
Lemma bus_event_cec_calls_refuted :
  cams_get (cams (final (run Initialize no_adapter_world [] (constructed front_door))))
    (dict_get (data (bus_message "garage")) "utterance" PNone) = PNone ∧
  handle_stream (bus_message "garage") handle_stream_default_idle (tv_world "on") []
      (final (run Initialize no_adapter_world [] (constructed front_door))) =
    Out (Err (AttributeError "display_id"))
      (final (run Initialize no_adapter_world [] (constructed front_door))) [] ∧
  ¬ Exists (λ e, gui_or_cec e = true)
      (events (handle_stream (bus_message "garage") handle_stream_default_idle
                 (tv_world "on") []
                 (final (run Initialize no_adapter_world [] (constructed front_door))))).
Proof.
  split_and!; [by vm_compute..|].
  assert (Hrun : events (handle_stream (bus_message "garage") handle_stream_default_idle
                           (tv_world "on") []
                           (final (run Initialize no_adapter_world []
                                     (constructed front_door)))) = [])
    by (by vm_compute).
  rewrite Hrun. by intros H%Exists_nil.
Qed.

(** C8, amended: the bus path is unguarded.  When the utterance matches
    no configured camera, handle_stream still calls show_stream with the
    URL None; it speaks nothing and does not consult the display flag, in
    any state and world.  Once setup has found an adapter (remote and
    display_id assigned) and the binding answers, show_stream issues
    GetDevicePowerStatus and SetActiveSource and, if SetActiveSource
    succeeded, show_url with None. *)
Theorem bus_event_unguarded (msg : message) (idle : pyval)
    (w : World) (past : list event) (s : skill) :
  cams_get (cams s) (dict_get (data msg) "utterance" PNone) = PNone →
  handle_stream msg idle w past s = show_stream PNone idle w past s ∧
  spoken (events (handle_stream msg idle w past s)) = [] ∧
  (∀ b : bool,
     result (handle_stream msg idle w past (set_display b s)) =
       result (handle_stream msg idle w past s) ∧
     events (handle_stream msg idle w past (set_display b s)) =
       events (handle_stream msg idle w past s)) ∧
  (∀ (id code : Z) (status : string) (active : bool),
     remote s = Some () →
     display_id s = Some id →
     answers w past (shown id code status active PNone idle) →
     ∃ rest, events (handle_stream msg idle w past s) =
               shown id code status active PNone idle ++ rest).
Proof.
  intros Hnone.
  assert (Heq : ∀ s', cams s' = cams s →
            handle_stream msg idle w past s' = show_stream PNone idle w past s').
  { intros s' Hs'. by rewrite handle_stream_show_stream, Hs', Hnone. }
  split_and!.
  - by apply Heq.
  - rewrite (Heq s eq_refl). apply spoken_silent, show_stream_silent.
  - intros b. rewrite (Heq s eq_refl), (Heq (set_display b s) eq_refl).
    apply show_stream_ignores_display.
  - intros id code status active Hr Hid Ha.
    rewrite (Heq s eq_refl), (show_stream_shown _ _ _ _ _ _ _ _ _ Hr Hid Ha).
    by eexists.
Qed.

Lemma bus_event_unguarded_witness :
  events (handle_stream (bus_message "garage") (PInt 60) (tv_world "on") []
            (ready front_door)) =
    events (show_stream PNone (PInt 60) (tv_world "on") [] (ready front_door)) ∧
  spoken (events (handle_stream (bus_message "garage") (PInt 60) (tv_world "on") []
                    (ready front_door))) = [] ∧
  ∃ rest,
    events (handle_stream (bus_message "garage") (PInt 60) (tv_world "on") []
              (ready front_door)) =
      shown 0 0 "on" true PNone (PInt 60) ++ rest.
Proof.
  destruct (bus_event_unguarded (bus_message "garage") (PInt 60)
              (tv_world "on") [] (ready front_door))
    as (Hrun & Hsilent & _ & Hcalls); [by vm_compute|].
  split_and!; [by rewrite Hrun|exact Hsilent|].
  apply Hcalls; clear; by vm_compute.
Defined.

(** What [show_stream] records in [display_status], once the binding has
    named the power status, stays there to the end of the call. *)
Lemma show_stream_records_status (cam_url idle : pyval) (id code : Z)
    (status : string) (w : World) (past : list event) (s : skill) :
  remote s = Some () →
  display_id s = Some id →
  answers w past [returns (GetDevicePowerStatus id) code;
                  returns (PowerStatusToString code) status] →
  display_status (final (show_stream cam_url idle w past s)) = Some status.
Proof.
  intros Hr Hid Ha. unfold returns in *. cbn [answers] in Ha. destruct_and!.
  unfold show_stream, remote_call.
  replay ltac:(rewrite ?Hr, ?Hid).
  cbn [final prepend].
  lazymatch goal with
  | |- display_status (final (?m ?w' ?h ?s')) = _ =>
      assert (Hrest : respects same_status any_event m)
        by (unfold_methods; respects_tac; done);
      destruct (Hrest w' h s') as [Hsame _]
  end.
  by rewrite Hsame.
Qed.

(** The operations that do not reach [show_stream] leave
    [display_status] as it is, and those that do not reach [setup_cec]
    leave [display_id] as it is. *)
Lemma run_same_status (op : operation) :
  shows_stream op = false → respects same_status any_event (run op).
Proof. destruct op; try done; intros _; unfold_methods; respects_tac; done. Qed.

Lemma run_same_id (op : operation) :
  sets_up op = false → respects same_id any_event (run op).
Proof. destruct op; try done; intros _; unfold_methods; respects_tac; done. Qed.

(** C9: handle_camera_completed removes the page Camera.qml and releases
    the GUI, and then calls StandbyDevices on the display exactly when the
    recorded power status is "standby"; the status it reads is the string
    the binding returned at the start of the last show_stream. *)
Theorem standby_iff_recorded (id : Z) (status : string)
    (w : World) (past : list event) (s : skill) :
  remote s = Some () →
  display_id s = Some id →
  display_status s = Some status →
  answers w past closed →
  take 2 (events (handle_camera_completed w past s)) = closed ∧
  (Exists (λ e, is_standby e = true) (events (handle_camera_completed w past s))
     ↔ status = "standby") ∧
  (status = "standby" →
     events (handle_camera_completed w past s) !! 3%nat =
       Some (EvCall (StandbyDevices id)
               (w (past ++ closed ++ [EvLog Debug "{}" [PStr status]])
                  (StandbyDevices id)))) ∧
  (status ≠ "standby" →
     handle_camera_completed w past s =
       Out (Ok ()) s (closed ++ [EvLog Debug "{}" [PStr status]])) ∧
  (∀ (cam_url idle : pyval) (code : Z) (w' : World) (past' : list event) (s' : skill),
     remote s' = Some () →
     display_id s' = Some id →
     answers w' past' [returns (GetDevicePowerStatus id) code;
                       returns (PowerStatusToString code) status] →
     display_status (final (show_stream cam_url idle w' past' s')) = Some status).
Proof.
  intros Hr Hid Hst Ha. unfold closed, returns in *.
  cbn [answers] in Ha. destruct_and!.
  unfold handle_camera_completed, log.
  replay ltac:(rewrite ?Hr, ?Hid, ?Hst).
  rewrite <- !app_assoc. cbn [app].
  destruct (String.eqb_spec status "standby") as [->|Hne].
  - steps_with ltac:(rewrite ?Hr, ?Hid, ?Hst).
    destruct (w _ (StandbyDevices id)) as [e|x];
      (split_and!; [done| |done|done|]);
      try (split; [done|intros _; cbn; repeat constructor]);
      intros; by eapply show_stream_records_status.
  - split_and!; [done| |done|done|].
    + split; [|done]. cbn. intros Hex.
      repeat (apply Exists_cons in Hex as [Hex|Hex]; [done|]).
      by apply Exists_nil in Hex.
    + intros; by eapply show_stream_records_status.
Qed.

Lemma standby_iff_recorded_witness :
  Exists (λ e, is_standby e = true)
    (events (handle_camera_completed (tv_world "standby") []
               (set_display_status "standby" (ready front_door)))).
Proof.
  destruct (standby_iff_recorded 0 "standby" (tv_world "standby") []
              (set_display_status "standby" (ready front_door)))
    as (_ & Hiff & _); [by vm_compute..|].
  by apply Hiff.
Defined.

(** C10: handle_camera_completed reads display_status unconditionally
    (and display_id on the standby branch).  display_status is assigned
    only by operations that reach show_stream, display_id only by those
    that reach setup_cec.  So while display_status is unset (no stream was
    shown yet), the CompleteCam intent and the stop command remove the
    page, release the GUI and then raise AttributeError: they never
    complete. *)
Theorem completed_before_stream_raises (w : World) (past : list event) (s : skill) :
  display_status s = None →
  answers w past closed →
  run HandleCameraCompleted w past s =
    Out (Err (AttributeError "display_status")) s closed ∧
  run Stop w past s =
    Out (Err (AttributeError "display_status")) s closed ∧
  (∀ (w' : World) (past' : list event),
     result (run HandleCameraCompleted w' past' s) ≠ Ok () ∧
     result (run Stop w' past' s) ≠ Ok ()) ∧
  (∀ (op : operation) (w' : World) (past' : list event),
     shows_stream op = false →
     display_status (final (run op w' past' s)) = None) ∧
  (∀ (op : operation) (w' : World) (past' : list event) (s' : skill),
     sets_up op = false →
     display_id (final (run op w' past' s')) = display_id s') ∧
  (∀ (w' : World) (past' : list event) (s' : skill),
     remote s' = Some () →
     display_status s' = Some "standby" →
     display_id s' = None →
     answers w' past' closed →
     run Stop w' past' s' =
       Out (Err (AttributeError "display_id")) s'
         (closed ++ [EvLog Debug "{}" [PStr "standby"]])).
Proof.
  intros Hst Ha.
  assert (Hrun : handle_camera_completed w past s =
            Out (Err (AttributeError "display_status")) s closed).
  { unfold closed, returns in *. cbn [answers] in Ha. destruct_and!.
    unfold handle_camera_completed, log.
    by replay ltac:(rewrite ?Hst). }
  split_and!; try exact Hrun.
  - intros w' past'.
    assert (result (handle_camera_completed w' past' s) ≠ Ok ()); [|done].
    unfold handle_camera_completed, log. steps.
    destruct (w' _ (GuiRemovePage _)); [done|]. steps.
    destruct (w' _ GuiRelease); [done|]. steps.
    by rewrite Hst.
  - intros op w' past' Hop.
    destruct (run_same_status op Hop w' past' s) as [Hsame _].
    by rewrite Hsame.
  - intros op w' past' s' Hop. apply (run_same_id op Hop).
  - intros w' past' s' Hr' Hst' Hid' Ha'.
    unfold closed, returns in *. cbn [answers] in Ha'. destruct_and!.
    unfold run, stop, handle_camera_completed, log.
    replay ltac:(rewrite ?Hr', ?Hst', ?Hid').
    cbn [String.eqb Ascii.eqb Bool.eqb].
    steps_with ltac:(rewrite ?Hr', ?Hst', ?Hid').
    by rewrite !prepend_prepend.
Qed.

Lemma completed_before_stream_raises_witness :
  result (run Stop (tv_world "on") []
            (final (run Initialize (tv_world "on") [] (constructed front_door)))) =
    Err (AttributeError "display_status").
Proof.
  destruct (completed_before_stream_raises (tv_world "on") []
              (final (run Initialize (tv_world "on") [] (constructed front_door))))
    as (_ & Hstop & _); [by vm_compute..|].
  by rewrite Hstop.
Defined.

Lemma fallbacks_known (ev : list event) :
  Forall speaks_known ev →
  Forall (λ dialog, dialog ∈ ["display.not.available"; "stream.not_specified";
                              "stream.no_config"])
    (fallbacks ev).
Proof.
  intros Hev. unfold fallbacks.
  apply Forall_forall. intros dialog [Hne Hin]%list_elem_of_filter.
  pose proof (proj1 (Forall_forall _ _) (spoken_known ev Hev) dialog Hin) as Hd.
  unfold dialogs in Hd. by apply elem_of_cons in Hd as [->|Hd].
Qed.

Lemma fallbacks_silent (ev : list event) : Forall silent ev → fallbacks ev = [].
Proof. intros Hev. unfold fallbacks. by rewrite (spoken_silent ev Hev). Qed.

(** What [setup_cec] says depends on the detection alone. *)
Lemma setup_cec_fallbacks (w : World) (past : list event) (s : skill) :
  fallbacks (events (setup_cec w past s)) =
    match detected (events (setup_cec w past s)) with
    | Some [] => ["display.not.available"]
    | _ => []
    end.
Proof.
  unfold setup_cec, remote_call, log, speak_dialog. steps.
  destruct (w past LibcecConfiguration) as [e|u1]; [done|]. steps.
  destruct (w _ (DeviceTypesAdd _)) as [e|u2]; [done|]. steps.
  destruct (w _ (Create _)) as [e|u3]; [done|]. steps.
  destruct (w _ DetectAdapters) as [e|[|first adapters]]; [done| |].
  - cbn [imap foreach]. by steps.
  - rewrite !prepend_prepend. cbn [app events prepend detected].
    lazymatch goal with
    | |- context [events (?m ?w' ?h ?s')] =>
        assert (Hrest : respects any_change silent m)
          by (unfold_methods; respects_tac; done);
        destruct (Hrest w' h s') as [_ Hsilent]
    end.
    apply fallbacks_silent. by repeat (constructor; [done|]).
Qed.

(** What [handle_get_stream] says depends on the display flag, the
    camera name and the configured URL alone. *)
Lemma handle_get_stream_fallbacks (msg : message) (w : World) (past : list event)
    (s : skill) :
  fallbacks (events (handle_get_stream msg w past s)) =
    match display s with
    | None => []
    | Some false => ["display.not.available"]
    | Some true =>
        let cam_name := dict_get (data msg) "location" PNone in
        if negb (truthy cam_name) then ["stream.not_specified"]
        else if negb (truthy (cams_get (cams s) cam_name)) then ["stream.no_config"]
        else []
    end.
Proof.
  unfold handle_get_stream, log, speak_dialog. rewrite bind_get_attr.
  destruct (display s) as [[|]|]; [|done..]. steps.
  destruct (truthy (dict_get (data msg) "location" PNone)); cbn [negb]; [|done].
  steps.
  destruct (truthy (cams_get _ _)); cbn [negb]; [|done].
  rewrite !prepend_prepend. cbn [app events prepend].
  apply fallbacks_silent. repeat (constructor; [done|]).
  apply show_stream_silent.
Qed.

(** C1 as stated fails: a stream request that names no camera (display
    available) is answered with the spoken fallback stream.not_specified,
    a third guarded failure path. *)
Lemma two_guards_refuted :
  ¬ Forall (λ dialog, dialog ∈ ["display.not.available"; "stream.no_config"])
      (fallbacks (events (run (HandleGetStream (Message ∅)) (tv_world "on") []
                            (ready front_door)))).
Proof.
  assert (Hrun : fallbacks (events (run (HandleGetStream (Message ∅)) (tv_world "on") []
                                      (ready front_door))) = ["stream.not_specified"])
    by (by vm_compute).
  rewrite Hrun. intros [Hin _]%Forall_cons.
  apply elem_of_cons in Hin as [Hin|Hin]; [done|].
  by apply list_elem_of_singleton in Hin.
Qed.

(** ** The constructor and the camera app *)

(** X1: [__init__] expands "~/Pictures" and keeps what
    [os.path.expanduser] returned as [save_folder]; that folder is the one
    asked of [os.path.isdir], and [os.makedirs] is called for it exactly
    when it was reported missing, never otherwise.  The skill returned
    holds the [cams] section of the configuration (empty when the section
    is missing) and none of the attributes that setup and streaming
    assign: a stream request on it raises AttributeError before doing
    anything. *)
Theorem init_outcome (config_core : gmap string (gmap string pyval))
    (w : World) (past : list event) :
  omap made_dir (__init__ config_core w past).2 =
    (filter (λ p, p.2 = false) (omap checked_dir (__init__ config_core w past).2)).*1 ∧
  ∀ s : skill,
    (__init__ config_core w past).1 = Ok s →
    cams s = default ∅ (config_core !! "cams") ∧
    omap expanded_user (__init__ config_core w past).2 =
      [("~/Pictures", save_folder s)] ∧
    (omap checked_dir (__init__ config_core w past).2).*1 = [save_folder s] ∧
    camera_mode s = PNone ∧
    remote s = None ∧ display s = None ∧ display_id s = None ∧
    display_status s = None ∧
    ∀ (msg : message) (w' : World) (past' : list event),
      handle_get_stream msg w' past' s = Out (Err (AttributeError "display")) s [].
Proof.
  unfold __init__. cbv zeta. steps.
  destruct (w past (OsExpandUser _)) as [e|folder]; [by split|]. steps.
  destruct (w _ (OsIsDir folder)) as [e|[|]]; [by split| |]; cbn [negb]; steps.
  - split; [done|]. intros s [= <-]. by split_and!.
  - destruct (w _ (OsMakedirs folder)) as [e|u]; [by split|]. steps.
    split; [done|]. intros s [= <-]. by split_and!.
Qed.

Lemma init_outcome_witness :
  omap made_dir (__init__ {[ "cams" := front_door ]} fresh_home_world []).2 =
    ["/home/mycroft/Pictures"] ∧
  omap expanded_user (__init__ {[ "cams" := front_door ]} fresh_home_world []).2 =
    [("~/Pictures", save_folder (constructed front_door))] ∧
  cams (constructed front_door) = front_door ∧
  handle_get_stream (say "front door") (tv_world "on") []
      (constructed front_door) =
    Out (Err (AttributeError "display")) (constructed front_door) [].
Proof.
  destruct (init_outcome {[ "cams" := front_door ]} fresh_home_world [])
    as [Hdirs Hskill].
  destruct (Hskill (constructed front_door) eq_refl)
    as (Hcams & Hexp & _ & _ & _ & _ & _ & _ & Hraise).
  split_and!; [by rewrite Hdirs|exact Hexp|by rewrite Hcams|apply Hraise].
Defined.

Lemma run_camera_op (op : operation) :
  camera_op op = true → respects eq gui_only (run op).
Proof. destruct op; try done; intros _; unfold_methods; respects_tac; done. Qed.

(** X4: the camera operations (capture, open, status, activity and the
    two API methods) talk to the GUI bridge only: in every world they make
    no libcec call, no [os] call, no sleep, speak nothing but the
    acknowledgement, and leave every attribute of the skill as it was. *)
Theorem camera_ops_gui_only (op : operation) (w : World) (past : list event) (s : skill) :
  camera_op op = true →
  final (run op w past s) = s ∧
  Forall gui_only (events (run op w past s)) ∧
  fallbacks (events (run op w past s)) = [].
Proof.
  intros Hop. destruct (run_camera_op op Hop w past s) as [Hs Hev].
  split_and!; [done|done|].
  unfold fallbacks.
  induction Hev as [|e ev He _ IH]; [done|].
  destruct e; try done. cbn in He. subst. cbn [spoken].
  rewrite filter_cons. by case_decide.
Qed.

Lemma camera_ops_gui_only_witness :
  final (run (HandleCaptureSingleShot (Message ∅)) (tv_world "on") []
           (constructed front_door)) = constructed front_door.
Proof.
  apply (camera_ops_gui_only (HandleCaptureSingleShot (Message ∅)) (tv_world "on") []
           (constructed front_door)). reflexivity.
Defined.

(** Answer the GUI call the run is waiting for. *)
Ltac answer_gui Hgui :=
  match goal with
  | |- context [match ?w ?h ?c with _ => _ end] =>
      let v := fresh "v" in
      let Hv := fresh "Hv" in
      destruct (Hgui h c eq_refl) as [v Hv]; rewrite Hv; clear Hv;
      cbn in v; destruct v
  end.

(** X3: when the GUI bridge answers, taking a photo and opening the
    camera complete from any state (no setup is needed), the session
    variable singleshot_mode ends up true for a photo and false for the
    live view (the capture handler first writes false, then true),
    save_path holds the skill's save folder, and the last thing done is to
    show the page Camera.qml with both overrides. *)
Theorem camera_request_mode (op : operation) (b : bool)
    (w : World) (past : list event) (s : skill) :
  gui_answers w →
  requested_mode op = Some b →
  result (run op w past s) = Ok () ∧
  gui_value "singleshot_mode" (events (run op w past s)) = Some (PBool b) ∧
  gui_value "save_path" (events (run op w past s)) = Some (PStr (save_folder s)) ∧
  last (events (run op w past s)) = Some (returns (GuiShowPage "Camera.qml" true true) ()).
Proof.
  intros Hgui Hop.
  destruct op; try done; injection Hop as <-; unfold_methods;
    repeat (steps; cbn [String.eqb Ascii.eqb Bool.eqb]; try answer_gui Hgui);
    match goal with
    | |- context [do_call ?c w ?h s] =>
        unfold do_call; destruct (Hgui h c eq_refl) as [[] ->]
    end;
    by split_and!.
Qed.

Lemma camera_request_mode_witness :
  gui_value "singleshot_mode"
    (events (run (HandleCaptureSingleShot (Message ∅)) no_adapter_world []
               (constructed front_door))) = Some (PBool true).
Proof.
  apply (camera_request_mode (HandleCaptureSingleShot (Message ∅)) true
           no_adapter_world [] (constructed front_door)); [|reflexivity].
  intros past c _. by eexists.
Defined.

(** X2: a camera GUI status change writes singleshot_mode at most once:
    true for the status singleshot, false for generic and imagetaken; any
    other status, or a message without a status, is ignored without any
    call.  The skill's attributes are never touched. *)
Theorem camera_status_write (msg : message) (status : pyval)
    (w : World) (past : list event) (s : skill) :
  dict_get (data msg) "status" PNone = status →
  final (handle_camera_status msg w past s) = s ∧
  (length (events (handle_camera_status msg w past s)) ≤ 1)%nat ∧
  (status ≠ PStr "singleshot" → status ≠ PStr "generic" →
   status ≠ PStr "imagetaken" →
   handle_camera_status msg w past s = Out (Ok ()) s []) ∧
  (status = PStr "singleshot" →
   events (handle_camera_status msg w past s) =
     [EvCall (GuiSet "singleshot_mode" (PBool true))
        (w past (GuiSet "singleshot_mode" (PBool true)))]) ∧
  (status = PStr "generic" ∨ status = PStr "imagetaken" →
   events (handle_camera_status msg w past s) =
     [EvCall (GuiSet "singleshot_mode" (PBool false))
        (w past (GuiSet "singleshot_mode" (PBool false)))]).
Proof.
  intros <-. unfold handle_camera_status.
  destruct (dict_get (data msg) "status" PNone) as [| | |st];
    cbn [eq_str]; steps.
  1-3: split_and!; first [done | cbn; lia | by intros [|]].
  destruct (String.eqb_spec st "generic") as [->|Hg].
  { cbn [String.eqb Ascii.eqb Bool.eqb]. steps.
    destruct (w past (GuiSet _ _)); steps; split_and!; first [done | cbn; lia | auto]. }
  destruct (String.eqb_spec st "imagetaken") as [->|Hi].
  { cbn [String.eqb Ascii.eqb Bool.eqb]. steps.
    destruct (w past (GuiSet _ _)); steps; split_and!; first [done | cbn; lia | auto]. }
  destruct (String.eqb_spec st "singleshot") as [->|Hs].
  { steps. unfold do_call.
    destruct (w past (GuiSet _ _)); split_and!; first [done | cbn; lia | by intros [|]]. }
  steps. split_and!; first [done | cbn; lia | congruence | intros [|]; congruence].
Qed.

Lemma camera_status_write_witness :
  handle_camera_status (Message {[ "status" := PStr "recording" ]})
      (tv_world "on") [] (ready front_door) =
    Out (Ok ()) (ready front_door) [].
Proof.
  destruct (camera_status_write (Message {[ "status" := PStr "recording" ]})
              (PStr "recording") (tv_world "on") [] (ready front_door))
    as (_ & _ & Hignored & _); [by vm_compute|].
  by apply Hignored.
Defined.

(** ** Setup *)

(** A loop that only emits: its events are the images of the list. *)
Lemma foreach_emit {A B : Type} (l : list A) (g : A → event) (f : unit → M B)
    (w : World) (past : list event) (s : skill) :
  (foreach l (λ x, emit (g x)) ≫= f) w past s =
    prepend (g <$> l) (f () w (past ++ (g <$> l)) s).
Proof.
  revert past. induction l as [|x l IH]; intros past; cbn [foreach fmap list_fmap].
  - by rewrite bind_ret, app_nil_r, prepend_nil.
  - rewrite bind_assoc, bind_emit, IH, prepend_prepend.
    by rewrite <- app_assoc.
Qed.

Lemma omap_images {A B : Type} (f : event → option B) (g : A → event) (l : list A) :
  (∀ x, f (g x) = None) → omap f (g <$> l) = [].
Proof.
  intros Hfg. induction l as [|x l IH]; [done|].
  cbn. by rewrite Hfg.
Qed.

Lemma spoken_images {A : Type} (g : A → event) (l : list A) :
  (∀ x, is_speak (g x) = false) → spoken (g <$> l) = [].
Proof.
  intros Hg. apply spoken_silent, Forall_fmap, Forall_forall.
  intros x _. apply Hg.
Qed.

(** A computation followed by a last assignment. *)
Lemma bind_assign_last (x : M unit) (g : skill → skill)
    (w : World) (past : list event) (s : skill) :
  (x ≫= λ _, assign g) w past s =
    match result (x w past s) with
    | Ok _ => Out (Ok ()) (g (final (x w past s))) (events (x w past s))
    | Err e => Out (Err e) (final (x w past s)) (events (x w past s))
    end.
Proof.
  unfold mbind, M_bind, assign, prepend; cbn.
  destruct (result (x w past s)); cbn; [|done]. by rewrite app_nil_r.
Qed.

(** X5: what setup leaves in the display flag is decided by the
    detection alone, in every world: false if [DetectAdapters] returned
    no adapter, true if it returned some (whatever happens afterwards,
    also when the adapter cannot be opened or a later call raises), and
    untouched if the detection was never reached or raised. *)
Theorem display_flag_by_detection (w : World) (past : list event) (s : skill) :
  display (final (setup_cec w past s)) =
    match detected (events (setup_cec w past s)) with
    | Some [] => Some false
    | Some (_ :: _) => Some true
    | None => display s
    end.
Proof.
  unfold setup_cec, remote_call, log, speak_dialog. steps.
  destruct (w past LibcecConfiguration) as [e|u1]; [done|]. steps.
  destruct (w _ (DeviceTypesAdd _)) as [e|u2]; [done|]. steps.
  destruct (w _ (Create _)) as [e|u3]; [done|]. steps.
  destruct (w _ DetectAdapters) as [e|[|first adapters]]; [done| |].
  - cbn [imap foreach]. by steps.
  - rewrite foreach_emit. steps.
    rewrite !prepend_prepend. cbn [events final prepend app detected].
    destruct (w _ (Open _)) as [e|isopen]; [done|].
    cbn [final prepend].
    lazymatch goal with
    | |- display (final (?m ?w' ?h ?s')) = _ =>
        assert (Hrest : respects same_display any_event m)
          by (unfold_methods; respects_tac; done);
        destruct (Hrest w' h s') as [Hsame _]
    end.
    by rewrite Hsame.
Qed.

(** Run on, branching on every answer and every test. *)
Ltac crawl tac :=
  repeat (steps_with tac;
          try match goal with
              | |- context [match ?x with _ => _ end] => destruct x
              end).

(** One round of the scan: the address is probed first, nothing is
    opened or said, the vendor id is queried exactly if the address was
    reported present, and the skill is left as it was. *)
Lemma log_device_scan (x : Z) (w : World) (past : list event) (s : skill) :
  remote s = Some () →
  final (log_device x w past s) = s ∧
  omap probed (events (log_device x w past s)) = [x] ∧
  omap detailed (events (log_device x w past s)) =
    omap present (events (log_device x w past s)) ∧
  omap opened (events (log_device x w past s)) = [] ∧
  spoken (events (log_device x w past s)) = [].
Proof.
  intros Hr. unfold log_device, remote_call, log.
  crawl ltac:(rewrite ?Hr); by split_and!.
Qed.

Lemma foreach_log_device_scan (l : list Z) (w : World) (past : list event) (s : skill) :
  remote s = Some () →
  final (foreach l log_device w past s) = s ∧
  omap detailed (events (foreach l log_device w past s)) =
    omap present (events (foreach l log_device w past s)) ∧
  omap opened (events (foreach l log_device w past s)) = [] ∧
  spoken (events (foreach l log_device w past s)) = [] ∧
  (result (foreach l log_device w past s) = Ok () →
   omap probed (events (foreach l log_device w past s)) = l).
Proof.
  intros Hr. revert past. induction l as [|x l IH]; intros past; [done|].
  cbn [foreach]. unfold mbind, M_bind. cbv zeta.
  destruct (log_device_scan x w past s Hr) as (Hs & Hp & Hd & Ho & Hq).
  destruct (result (log_device x w past s)) as [[]|e].
  - rewrite Hs. cbn [final events result prepend].
    destruct (IH (past ++ events (log_device x w past s)))
      as (Hs' & Hd' & Ho' & Hq' & Hp').
    rewrite !omap_app, spoken_app, Hp, Hd, Ho, Hq, Hd', Ho', Hq'.
    split_and!; try done. intros Hok. by rewrite (Hp' Hok).
  - cbn [final events result]. by split_and!.
Qed.

(** X6: a setup that detected adapters and completed leaves the skill
    ready: [remote] set, the display flag true, [display_id] 0 and nothing
    else changed.  It opened the first adapter detected and no other, said
    nothing, and probed the logical addresses 0 to 15 in order.  Whether
    [Open] succeeded makes no difference: its failure is only logged. *)
Theorem setup_found_adapter (first : adapter) (others : list adapter)
    (w : World) (past : list event) (s : skill) :
  detected (events (setup_cec w past s)) = Some (first :: others) →
  result (setup_cec w past s) = Ok () →
  final (setup_cec w past s) = set_display_id 0 (set_display true (set_remote s)) ∧
  omap opened (events (setup_cec w past s)) = [strComName first] ∧
  spoken (events (setup_cec w past s)) = [] ∧
  omap probed (events (setup_cec w past s)) = seqZ 0 16.
Proof.
  unfold setup_cec, remote_call, log, speak_dialog. steps.
  destruct (w past LibcecConfiguration) as [e|u1]; [done|]. steps.
  destruct (w _ (DeviceTypesAdd _)) as [e|u2]; [done|]. steps.
  destruct (w _ (Create _)) as [e|u3]; [done|]. steps.
  destruct (w _ DetectAdapters) as [e|[|first' adapters]]; [done|done|].
  rewrite foreach_emit. steps.
  destruct (w _ (Open _)) as [e|isopen]; [done|].
  assert (Hlog : ∀ (l : list (nat * adapter)) {B : Type} (f : event → option B),
            (∀ lvl fmt args, f (EvLog lvl fmt args) = None) →
            omap f ((λ ia : nat * adapter,
                       EvLog Debug
                         "CEC adapter {i+1} port:{} vendor: {hex} product: {hex} "
                         [PInt (Z.of_nat ia.1 + 1); PStr (strComName ia.2);
                          PInt (iVendorId ia.2); PInt (iProductId ia.2)]) <$> l) = []).
  { intros l B f Hf. apply omap_images. intros ia. apply Hf. }
  destruct isopen; steps;
    (destruct (w _ GetActiveDevices) as [e|u4]; [done|]);
    rewrite bind_assign_last;
    lazymatch goal with
    | |- context [foreach ?l log_device ?w' ?h ?s'] =>
        destruct (foreach_log_device_scan l w' h s' eq_refl)
          as (Hs & _ & Ho & Hq & Hp);
        destruct (result (foreach l log_device w' h s')) as [[]|e]
    end;
    rewrite ?prepend_prepend; cbn [events final result prepend];
    intros Hdet Hok; try done;
    cbn [app detected] in Hdet; injection Hdet as <- <-;
    rewrite Hs, !omap_app, !spoken_app, !Hlog, Ho, Hq, (Hp eq_refl) by done;
    rewrite spoken_images by done;
    by split_and!.
Qed.

Lemma setup_found_adapter_witness :
  final (setup_cec stubborn_adapter_world [] (constructed front_door)) =
    ready front_door ∧
  omap opened (events (setup_cec stubborn_adapter_world [] (constructed front_door))) =
    ["/dev/cec0"].
Proof.
  destruct (setup_found_adapter
              {| strComName := "/dev/cec0"; iVendorId := 0x2708; iProductId := 0x1001 |}
              [] stubborn_adapter_world [] (constructed front_door))
    as (Hfinal & Hopened & _); [by vm_compute..|].
  split; [by rewrite Hfinal|exact Hopened].
Defined.

(** X7: in every world, setup queries the vendor id of exactly the
    logical addresses that [IsSet] reported present, in the same order;
    nothing is probed when no adapter was detected. *)
Theorem setup_details_of_present (w : World) (past : list event) (s : skill) :
  omap detailed (events (setup_cec w past s)) =
    omap present (events (setup_cec w past s)) ∧
  (detected (events (setup_cec w past s)) = Some [] →
   omap probed (events (setup_cec w past s)) = []).
Proof.
  unfold setup_cec, remote_call, log, speak_dialog. steps.
  destruct (w past LibcecConfiguration) as [e|u1]; [done|]. steps.
  destruct (w _ (DeviceTypesAdd _)) as [e|u2]; [done|]. steps.
  destruct (w _ (Create _)) as [e|u3]; [done|]. steps.
  destruct (w _ DetectAdapters) as [e|[|first adapters]]; [done| |].
  { cbn [imap foreach]. by steps. }
  rewrite foreach_emit. steps.
  assert (Hlog : ∀ (l : list (nat * adapter)) {B : Type} (f : event → option B),
            (∀ lvl fmt args, f (EvLog lvl fmt args) = None) →
            omap f ((λ ia : nat * adapter,
                       EvLog Debug
                         "CEC adapter {i+1} port:{} vendor: {hex} product: {hex} "
                         [PInt (Z.of_nat ia.1 + 1); PStr (strComName ia.2);
                          PInt (iVendorId ia.2); PInt (iProductId ia.2)]) <$> l) = []).
  { intros l B f Hf. apply omap_images. intros ia. apply Hf. }
  destruct (w _ (Open _)) as [e|isopen].
  { rewrite !prepend_prepend. cbn [events prepend].
    rewrite !omap_app, !Hlog by done. by split. }
  destruct isopen; steps;
    (destruct (w _ GetActiveDevices) as [e|u4];
     [rewrite !prepend_prepend; cbn [events prepend];
      rewrite !omap_app, !Hlog by done; by split|]);
    rewrite bind_assign_last;
    lazymatch goal with
    | |- context [foreach ?l log_device ?w' ?h ?s'] =>
        destruct (foreach_log_device_scan l w' h s' eq_refl)
          as (_ & Hd & _ & _ & _);
        destruct (result (foreach l log_device w' h s')) as [[]|e]
    end;
    rewrite ?prepend_prepend; cbn [events prepend];
    rewrite !omap_app, !Hlog, Hd by done;
    (split; [done|]);
    rewrite <- !app_assoc; cbn [app detected]; done.
Qed.

Lemma setup_details_of_present_witness :
  omap detailed (events (setup_cec (tv_world "on") [] (constructed front_door))) = [0] ∧
  omap probed (events (setup_cec no_adapter_world [] (constructed front_door))) = [].
Proof.
  destruct (setup_details_of_present (tv_world "on") [] (constructed front_door))
    as [Hdetails _].
  destruct (setup_details_of_present no_adapter_world [] (constructed front_door))
    as [_ Hnone].
  split; [by rewrite Hdetails|by apply Hnone].
Defined.

(** With the binding answering, one round of the scan completes. *)
Lemma log_device_completes (x : Z) (w : World) (past : list event) (s : skill) :
  cec_answers w →
  remote s = Some () →
  result (log_device x w past s) = Ok ().
Proof.
  intros Hcec Hr. unfold log_device, remote_call, log.
  repeat (steps_with ltac:(rewrite ?Hr);
          try match goal with
              | |- context [match ?w' ?h ?c with _ => _ end] =>
                  let v := fresh "v" in
                  let Hv := fresh "Hv" in
                  destruct (Hcec h c eq_refl) as [v Hv]; rewrite Hv; clear Hv
              | |- context [if ?b then _ else _] => destruct b
              end);
    done.
Qed.

Lemma foreach_log_device_completes (l : list Z) (w : World) (past : list event)
    (s : skill) :
  cec_answers w →
  remote s = Some () →
  result (foreach l log_device w past s) = Ok ().
Proof.
  intros Hcec Hr. revert past. induction l as [|x l IH]; intros past; [done|].
  cbn [foreach]. unfold mbind, M_bind. cbv zeta.
  rewrite (log_device_completes x w past s Hcec Hr).
  destruct (log_device_scan x w past s Hr) as (-> & _).
  cbn [result prepend]. apply IH.
Qed.

(** X8: when the libcec binding answers every call, setup completes,
    and so does initialize: no exception of the skill's own is in the
    way, whatever the configuration, the history and the state of the
    skill; afterwards [remote] and the display flag are set. *)
Theorem setup_completes (w : World) (past : list event) (s : skill) :
  cec_answers w →
  result (run SetupCec w past s) = Ok () ∧
  result (run Initialize w past s) = Ok () ∧
  remote (final (run Initialize w past s)) = Some () ∧
  is_Some (display (final (run Initialize w past s))).
Proof.
  intros Hcec.
  assert (Hsetup : ∀ past', result (setup_cec w past' s) = Ok () ∧
            remote (final (setup_cec w past' s)) = Some () ∧
            is_Some (display (final (setup_cec w past' s)))).
  { intros past'. unfold setup_cec, remote_call, log, speak_dialog. steps.
    destruct (Hcec past' LibcecConfiguration eq_refl) as [u1 ->]. steps.
    destruct (Hcec (past' ++ [EvCall LibcecConfiguration (inr u1)])
                (DeviceTypesAdd CEC_DEVICE_TYPE_RECORDING_DEVICE) eq_refl) as [u2 ->].
    steps.
    match goal with
    | |- context [match w ?h (Create cecconfig) with _ => _ end] =>
        destruct (Hcec h (Create cecconfig) eq_refl) as [u3 ->]
    end.
    steps.
    match goal with
    | |- context [match w ?h DetectAdapters with _ => _ end] =>
        destruct (Hcec h DetectAdapters eq_refl) as [[|first adapters] ->]
    end.
    { cbn [imap foreach]. steps. by split_and!. }
    rewrite foreach_emit. steps.
    match goal with
    | |- context [match w ?h (Open ?p) with _ => _ end] =>
        destruct (Hcec h (Open p) eq_refl) as [isopen ->]
    end.
    destruct isopen; steps;
      match goal with
      | |- context [match w ?h GetActiveDevices with _ => _ end] =>
          destruct (Hcec h GetActiveDevices eq_refl) as [u4 ->]
      end;
      rewrite bind_assign_last;
      lazymatch goal with
      | |- context [foreach ?l log_device ?w' ?h ?s'] =>
          rewrite (foreach_log_device_completes l w' h s' Hcec eq_refl);
          destruct (foreach_log_device_scan l w' h s' eq_refl) as (-> & _)
      end;
      by split_and!. }
  split; [apply Hsetup|].
  unfold run, initialize. steps. rewrite foreach_emit.
  cbn [result final prepend]. apply Hsetup.
Qed.

Lemma setup_completes_witness :
  result (run Initialize stubborn_adapter_world [] (constructed front_door)) = Ok ().
Proof.
  apply (setup_completes stubborn_adapter_world [] (constructed front_door)).
  intros past c Hc. destruct c; try done; by eexists.
Defined.

(** ** Initialization *)

Lemma setup_cec_no_vocabulary :
  respects any_change (λ e, vocabulary e = None) setup_cec.
Proof. unfold_methods. respects_tac; done. Qed.

Lemma omap_none (f : event → option (string * string)) (ev : list event) :
  Forall (λ e, f e = None) ev → omap f ev = [].
Proof.
  induction 1 as [|e ev He _ IH]; [done|]. cbn. by rewrite He.
Qed.

Lemma keys_of_map (m : gmap string pyval) (k : string) :
  k ∈ (map_to_list m).*1 ↔ is_Some (m !! k).
Proof.
  rewrite list_elem_of_fmap. split.
  - intros ([k' v] & -> & Hin). apply elem_of_map_to_list in Hin. by eexists.
  - intros [v Hv]. exists (k, v). split; [done|]. by apply elem_of_map_to_list.
Qed.

(** X9: initialize registers every configured camera name, exactly
    once, as vocabulary of the concept location, and registers no other
    vocabulary; this holds in every world, also when the CEC setup that
    follows fails.  With no camera configured nothing is registered. *)
Theorem initialize_vocabulary (w : World) (past : list event) (s : skill) :
  (∀ word concept : string,
     (word, concept) ∈ omap vocabulary (events (initialize w past s)) ↔
     concept = "location" ∧ is_Some (cams s !! word)) ∧
  NoDup (omap vocabulary (events (initialize w past s))) ∧
  (cams s = ∅ → omap vocabulary (events (initialize w past s)) = []).
Proof.
  assert (Hvoc : omap vocabulary (events (initialize w past s)) =
            (λ word, (word, "location")) <$> (map_to_list (cams s)).*1).
  { unfold initialize. steps. rewrite foreach_emit.
    rewrite !prepend_prepend. cbn [events prepend].
    rewrite !omap_app.
    rewrite (omap_none _ (events (setup_cec _ _ _)))
      by apply setup_cec_no_vocabulary.
    rewrite app_nil_r. cbn [app omap list_omap vocabulary].
    induction (map_to_list (cams s)).*1 as [|k l IH]; [done|].
    cbn. by rewrite <- IH. }
  rewrite Hvoc. split_and!.
  - intros word concept. rewrite list_elem_of_fmap. split.
    + intros (k & [= -> ->] & Hin). split; [done|]. by apply keys_of_map.
    + intros [-> Hin]. exists word. split; [done|]. by apply keys_of_map.
  - apply NoDup_fmap_2; [by intros k1 k2 [=]|]. apply NoDup_fst_map_to_list.
  - intros ->. by rewrite map_to_list_empty.
Qed.

Lemma initialize_vocabulary_witness :
  omap vocabulary (events (initialize no_adapter_world [] (constructed ∅))) = [] ∧
  ("front door", "location") ∈
    omap vocabulary (events (initialize no_adapter_world [] (constructed front_door))).
Proof.
  destruct (initialize_vocabulary no_adapter_world [] (constructed ∅))
    as (_ & _ & Hnone).
  destruct (initialize_vocabulary no_adapter_world [] (constructed front_door))
    as (Hall & _ & _).
  split; [by apply Hnone|].
  apply Hall. split; [done|]. by eexists.
Defined.

(** ** Stream requests *)

Lemma show_stream_indefinite_left_alone (cam_url : pyval) :
  respects any_change left_alone (show_stream cam_url (PBool true)).
Proof.
  unfold show_stream, remote_call, log. cbn [is_True negb].
  respects_tac; done.
Qed.

(** X10: a stream request without view.short is an indefinite view: in
    every world the handler never sleeps, never removes a page and never
    sends the display to standby; the stream stays up until something else
    closes it. *)
Theorem plain_view_left_alone (msg : message) (w : World) (past : list event)
    (s : skill) :
  truthy (dict_get (data msg) "view.short" (PBool false)) = false →
  Forall left_alone (events (handle_get_stream msg w past s)).
Proof.
  intros Hshort. unfold handle_get_stream, log, speak_dialog.
  rewrite bind_get_attr.
  destruct (display s) as [[|]|]; [|by repeat constructor..].
  steps. rewrite Hshort.
  destruct (truthy (dict_get (data msg) "location" PNone)); cbn [negb];
    [|by repeat constructor].
  steps.
  destruct (truthy (cams_get _ _)); cbn [negb]; [|by repeat constructor].
  rewrite !prepend_prepend. cbn [events prepend app].
  repeat (constructor; [done|]).
  apply show_stream_indefinite_left_alone.
Qed.

Lemma plain_view_left_alone_witness :
  Forall left_alone
    (events (handle_get_stream (say "front door") (tv_world "standby") []
               (ready front_door))).
Proof.
  apply (plain_view_left_alone (say "front door") (tv_world "standby") []
           (ready front_door)).
  by vm_compute.
Defined.

(** X12: in every world, [show_stream] asks the GUI to show the URL
    exactly when [SetActiveSource] returned true, and then once, with the
    URL and the idle value it was given; when [SetActiveSource] returned
    false, raised or was never reached, nothing is shown. *)
Theorem show_url_iff_active (cam_url idle : pyval) (w : World) (past : list event)
    (s : skill) :
  omap shown_url (events (show_stream cam_url idle w past s)) =
    if existsb became_active (events (show_stream cam_url idle w past s))
    then [(cam_url, idle)] else [].
Proof.
  unfold_methods. destruct idle as [|[|]|n|str]; cbn [negb is_True];
    repeat (steps;
            try match goal with
                | |- context [match ?w' ?h ?c with inl _ => _ | inr _ => _ end] =>
                    destruct (w' h c)
                | |- context [match ?p s with Some _ => _ | None => _ end] =>
                    destruct (p s)
                | |- context [if ?b then _ else _] => is_var b; destruct b
                | |- context [if ?z <? 0 then _ else _] => destruct (z <? 0)
                | |- context [if String.eqb ?a ?b then _ else _] =>
                    destruct (String.eqb a b)
                end);
    done.
Qed.

(** X11: the intent path never shows a URL that is not configured: in
    every world, handle_get_stream makes at most one [show_url] call, and
    its URL is the non-empty value the mapping holds for the requested
    name, its idle value 60 or True. *)
Theorem stream_request_shows_configured (msg : message) (w : World)
    (past : list event) (s : skill) :
  (length (omap shown_url (events (handle_get_stream msg w past s))) ≤ 1)%nat ∧
  Forall (λ p, p.1 = cams_get (cams s) (dict_get (data msg) "location" PNone) ∧
               truthy p.1 = true ∧
               (p.2 = PInt 60 ∨ p.2 = PBool true))
    (omap shown_url (events (handle_get_stream msg w past s))).
Proof.
  unfold handle_get_stream, log, speak_dialog. rewrite bind_get_attr.
  destruct (display s) as [[|]|]; [|split; [cbn; lia|by cbn]..].
  steps.
  destruct (truthy (dict_get (data msg) "location" PNone)); cbn [negb];
    [|split; [cbn; lia|by cbn]].
  steps.
  destruct (truthy (cams_get _ _)) eqn:Hurl; cbn [negb];
    [|split; [cbn; lia|by cbn]].
  rewrite !prepend_prepend. cbn [events prepend app omap list_omap shown_url].
  rewrite show_url_iff_active.
  destruct (existsb _ _); [|split; [cbn; lia|by cbn]].
  split; [cbn; lia|].
  constructor; [|done]. cbn. split_and!; [done..|].
  destruct (truthy (dict_get (data msg) "view.short" (PBool false))); auto.
Qed.

(** What [handle_camera_completed] does about standby, with the GUI
    answering. *)
Lemma completed_standby (id : Z) (status : string) (w : World) (past : list event)
    (s : skill) :
  remote s = Some () →
  display_id s = Some id →
  display_status s = Some status →
  answers w past closed →
  omap standby_of (events (handle_camera_completed w past s)) =
    (if String.eqb status "standby" then [id] else []) ∧
  final (handle_camera_completed w past s) = s.
Proof.
  intros Hr Hid Hst Ha. unfold closed, returns in *.
  cbn [answers] in Ha. destruct_and!.
  unfold handle_camera_completed, log.
  replay ltac:(rewrite ?Hr, ?Hid, ?Hst).
  destruct (String.eqb status "standby"); [|done].
  steps_with ltac:(rewrite ?Hr, ?Hid, ?Hst).
  by destruct (w _ (StandbyDevices id)).
Qed.

(** X13: a timed stream puts the display back where it found it: with
    the binding and the GUI answering up to the closing of the view, the
    display is sent to standby afterwards exactly if its power status was
    "standby" when the stream started, and it is the display that setup
    recorded (display_id) that is addressed. *)
Theorem timed_stream_restores_standby (cam_url : pyval) (n id code : Z)
    (status : string) (active : bool) (w : World) (past : list event) (s : skill) :
  remote s = Some () →
  display_id s = Some id →
  2 ≤ n →
  answers w past (shown id code status active cam_url (PInt n)
                    ++ [returns (Sleep (n - 2)) ()] ++ closed) →
  omap standby_of (events (show_stream cam_url (PInt n) w past s)) =
    (if String.eqb status "standby" then [id] else []) ∧
  final (show_stream cam_url (PInt n) w past s) = set_display_status status s.
Proof.
  intros Hr Hid Hn Ha.
  rewrite app_assoc in Ha. apply answers_app in Ha as [Ha Hc].
  rewrite (show_stream_timed _ _ _ _ _ _ _ _ _ Hr Hid Hn Ha).
  cbn [events final prepend]. rewrite omap_app.
  destruct (completed_standby id status w _ (set_display_status status s)
              Hr Hid eq_refl Hc) as [-> ->].
  split; [|done].
  unfold shown, returns. by destruct active.
Qed.

Lemma timed_stream_restores_standby_witness :
  omap standby_of
    (events (show_stream (PStr "rtsp://door.local/stream") (PInt 60)
               (tv_world "standby") [] (ready front_door))) = [0].
Proof.
  destruct (timed_stream_restores_standby (PStr "rtsp://door.local/stream")
              60 0 0 "standby" true (tv_world "standby") [] (ready front_door))
    as [Hstandby _]; [reflexivity|reflexivity|lia|by vm_compute|].
  exact Hstandby.
Defined.

(** X14: a stream request that names no camera (no location in the
    message, or an empty or otherwise false value), the display being
    available, speaks stream.not_specified and returns: two debug log
    lines, no GUI call, no CEC call, no change of state. *)
Theorem unnamed_camera_fallback (msg : message) (w : World) (past : list event)
    (s : skill) :
  display s = Some true →
  truthy (dict_get (data msg) "location" PNone) = false →
  handle_get_stream msg w past s =
    Out (Ok ()) s
      [EvLog Debug "Cam Name: {}" [dict_get (data msg) "location" PNone];
       EvLog Debug "Idle: {}"
         [if truthy (dict_get (data msg) "view.short" (PBool false))
          then PInt 60 else PBool true];
       EvSpeak "stream.not_specified" []] ∧
  Forall (λ e, gui_or_cec e = false) (events (handle_get_stream msg w past s)).
Proof.
  intros Hd Hname. unfold handle_get_stream, log, speak_dialog.
  rewrite bind_get_attr, Hd. steps. rewrite Hname. cbn [negb].
  split; [done|by repeat constructor].
Qed.

Lemma unnamed_camera_fallback_witness :
  handle_get_stream (Message {[ "location" := PStr "" ]}) (tv_world "on") []
      (ready front_door) =
    Out (Ok ()) (ready front_door)
      [EvLog Debug "Cam Name: {}" [PStr ""];
       EvLog Debug "Idle: {}" [PBool true];
       EvSpeak "stream.not_specified" []].
Proof.
  destruct (unnamed_camera_fallback (Message {[ "location" := PStr "" ]})
              (tv_world "on") [] (ready front_door)) as [Hrun _];
    [by vm_compute..|].
  exact Hrun.
Defined.

(** X15: after a setup that detected no adapter, display_id is still
    unset, so a skill.camera.showcam bus event makes handle_stream raise
    AttributeError for display_id at once: no CEC call, no GUI call,
    nothing spoken, whatever the message and the world. *)
Theorem bus_event_without_adapter (w : World) (past : list event) (s : skill) :
  display_id s = None →
  detected (events (setup_cec w past s)) = Some [] →
  ∀ (msg : message) (idle : pyval) (w' : World) (past' : list event),
    handle_stream msg idle w' past' (final (setup_cec w past s)) =
      Out (Err (AttributeError "display_id")) (final (setup_cec w past s)) [].
Proof.
  intros Hid.
  unfold setup_cec, remote_call, log, speak_dialog. steps.
  destruct (w past LibcecConfiguration) as [e|u1]; [by intros H; cbn in H|]. steps.
  destruct (w _ (DeviceTypesAdd _)) as [e|u2]; [by intros H; cbn in H|]. steps.
  destruct (w _ (Create _)) as [e|u3]; [by intros H; cbn in H|]. steps.
  destruct (w _ DetectAdapters) as [e|adapters]; [by intros H; cbn in H|].
  intros H. cbn in H. injection H as ->.
  cbn [imap foreach]. steps. cbn [final prepend emit assign].
  intros msg idle w' past'.
  unfold handle_stream, show_stream.
  steps_with ltac:(rewrite ?Hid). done.
Qed.

Lemma bus_event_without_adapter_witness :
  handle_stream (bus_message "front door") (PInt 60) (tv_world "on") []
      (final (setup_cec no_adapter_world [] (constructed front_door))) =
    Out (Err (AttributeError "display_id"))
      (final (setup_cec no_adapter_world [] (constructed front_door))) [].
Proof.
  apply (bus_event_without_adapter no_adapter_world [] (constructed front_door));
    reflexivity.
Defined.

(** X16: a stream request for a configured camera, the display being
    available, logs the name and the idle value and then is [show_stream]
    at the URL the mapping holds for the name, timed with idle 60 when the
    message carries view.short and indefinite (idle True) otherwise. *)
Theorem stream_request_shows (msg : message) (k : string) (url idle : pyval)
    (w : World) (past : list event) (s : skill) :
  display s = Some true →
  data msg !! "location" = Some (PStr k) →
  k ≠ "" →
  cams s !! k = Some url →
  truthy url = true →
  (if truthy (dict_get (data msg) "view.short" (PBool false))
   then PInt 60 else PBool true) = idle →
  handle_get_stream msg w past s =
    prepend [EvLog Debug "Cam Name: {}" [PStr k];
             EvLog Debug "Idle: {}" [idle]]
      (show_stream url idle w
         (past ++ [EvLog Debug "Cam Name: {}" [PStr k];
                   EvLog Debug "Idle: {}" [idle]])
         s).
Proof.
  intros Hd Hl Hk Hc Hurl <-.
  unfold handle_get_stream, log, speak_dialog.
  rewrite bind_get_attr, Hd. cbv beta iota zeta.
  rewrite (dict_get_some _ _ _ _ Hl).
  steps. rewrite (truthy_name k Hk). cbn [negb]. steps.
  rewrite (cams_get_some _ _ _ Hc), Hurl. cbn [negb].
  by rewrite !prepend_prepend, <- !app_assoc.
Qed.

Lemma stream_request_shows_witness :
  handle_get_stream (say_short "front door") (tv_world "on") [] (ready front_door) =
    prepend [EvLog Debug "Cam Name: {}" [PStr "front door"];
             EvLog Debug "Idle: {}" [PInt 60]]
      (show_stream (PStr "rtsp://door.local/stream") (PInt 60) (tv_world "on")
         [EvLog Debug "Cam Name: {}" [PStr "front door"];
          EvLog Debug "Idle: {}" [PInt 60]]
         (ready front_door)).
Proof.
  apply (stream_request_shows (say_short "front door") "front door"
           (PStr "rtsp://door.local/stream") (PInt 60) (tv_world "on") []
           (ready front_door));
    by vm_compute.
Defined.

(** X17: stop after an indefinite view: the power status that
    [show_stream] recorded decides what a later stop does.  With the GUI
    answering, stop sends the display recorded by setup to standby exactly
    if the status recorded when the stream was shown was "standby". *)
Theorem stop_after_view_restores_standby (cam_url : pyval) (id code : Z)
    (status : string) (active : bool) (w : World) (past : list event) (s : skill)
    (w' : World) (past' : list event) :
  remote s = Some () →
  display_id s = Some id →
  answers w past (shown id code status active cam_url (PBool true)) →
  answers w' past' closed →
  result (show_stream cam_url (PBool true) w past s) = Ok () ∧
  omap standby_of
    (events (run Stop w' past' (final (show_stream cam_url (PBool true) w past s)))) =
    (if String.eqb status "standby" then [id] else []).
Proof.
  intros Hr Hid Ha Hc.
  rewrite (show_stream_shown _ _ _ _ _ _ _ _ _ Hr Hid Ha).
  cbn [is_True negb final result prepend mret M_ret]. split; [done|].
  unfold run, stop.
  by destruct (completed_standby id status w' past' (set_display_status status s)
                 Hr Hid eq_refl Hc) as [-> _].
Qed.

Lemma stop_after_view_restores_standby_witness :
  omap standby_of
    (events (run Stop (tv_world "standby") []
               (final (show_stream (PStr "rtsp://door.local/stream") (PBool true)
                         (tv_world "standby") [] (ready front_door))))) = [0].
Proof.
  destruct (stop_after_view_restores_standby (PStr "rtsp://door.local/stream")
              0 0 "standby" true (tv_world "standby") [] (ready front_door)
              (tv_world "standby") [])
    as [_ Hstandby]; [reflexivity|reflexivity|by vm_compute..|].
  exact Hstandby.
Defined.

(** X18: an idle value below 2 leaves a sleep of negative length: the
    stream is shown, then [show_stream] raises ValueError without
    sleeping and without closing the view; nothing is removed, released or
    sent to standby. *)
Theorem short_idle_never_closes (cam_url : pyval) (n id code : Z)
    (status : string) (active : bool) (w : World) (past : list event) (s : skill) :
  remote s = Some () →
  display_id s = Some id →
  n < 2 →
  answers w past (shown id code status active cam_url (PInt n)) →
  show_stream cam_url (PInt n) w past s =
    Out (Err (ValueError "sleep length must be non-negative"))
      (set_display_status status s)
      (shown id code status active cam_url (PInt n)) ∧
  Forall left_alone (events (show_stream cam_url (PInt n) w past s)).
Proof.
  intros Hr Hid Hn Ha.
  rewrite (show_stream_shown _ _ _ _ _ _ _ _ _ Hr Hid Ha).
  cbn [is_True negb minus_2]. steps. unfold sleep.
  assert ((n - 2 <? 0) = true) as -> by lia.
  steps. unfold prepend. cbn [result final events]. rewrite app_nil_r.
  split; [done|].
  unfold shown, returns. destruct active; by repeat constructor.
Qed.

Lemma short_idle_never_closes_witness :
  result (show_stream (PStr "rtsp://door.local/stream") (PInt 1)
            (tv_world "on") [] (ready front_door)) =
    Err (ValueError "sleep length must be non-negative").
Proof.
  destruct (short_idle_never_closes (PStr "rtsp://door.local/stream")
              1 0 0 "on" true (tv_world "on") [] (ready front_door))
    as [Hrun _]; [reflexivity|reflexivity|lia|by vm_compute|].
  by rewrite Hrun.
Defined.

(** ** The guards *)

Lemma fallbacks_acknowledged (ev : list event) :
  Forall only_acknowledges ev → fallbacks ev = [].
Proof.
  unfold fallbacks. induction 1 as [|e ev He _ IH]; [done|].
  destruct e; try done. cbn in He. subst. cbn [spoken].
  rewrite filter_cons. by case_decide.
Qed.

Lemma run_unguarded (op : operation) :
  guarded op = false → respects any_change only_acknowledges (run op).
Proof. destruct op; try done; intros _; unfold_methods; respects_tac; done. Qed.

Lemma detected_after_outputs (pre ev : list event) :
  Forall host_output pre → detected (pre ++ ev) = detected ev.
Proof.
  induction 1 as [|e pre He _ IH]; [done|]. by destruct e.
Qed.

(** A setup that detected no adapter completes and marks the display
    unavailable. *)
Lemma setup_cec_unavailable (w : World) (past : list event) (s : skill) :
  detected (events (setup_cec w past s)) = Some [] →
  display (final (setup_cec w past s)) = Some false.
Proof.
  unfold setup_cec, remote_call, log, speak_dialog. steps.
  destruct (w past LibcecConfiguration) as [e|u1]; [by intros H; cbn in H|]. steps.
  destruct (w _ (DeviceTypesAdd _)) as [e|u2]; [by intros H; cbn in H|]. steps.
  destruct (w _ (Create _)) as [e|u3]; [by intros H; cbn in H|]. steps.
  destruct (w _ DetectAdapters) as [e|adapters]; [by intros H; cbn in H|].
  intros H. cbn in H. injection H as ->.
  cbn [imap foreach]. by steps.
Qed.

(** [initialize] is registration, which only emits, and then setup. *)
Lemma initialize_setup_cec (w : World) (past : list event) (s : skill) :
  ∃ pre : list event,
    Forall host_output pre ∧ Forall silent pre ∧
    initialize w past s = prepend pre (setup_cec w (past ++ pre) s).
Proof.
  unfold initialize. steps. rewrite foreach_emit, !prepend_prepend.
  eexists. split_and!; [| |by rewrite <- !app_assoc].
  - repeat (constructor; [done|]). apply Forall_fmap, Forall_forall. by intros.
  - repeat (constructor; [done|]). apply Forall_fmap, Forall_forall. by intros.
Qed.

(** A guarded exit of [handle_get_stream] is an early return: nothing
    but log lines and the dialog. *)
Lemma handle_get_stream_guarded_exit (msg : message) (w : World) (past : list event)
    (s : skill) :
  fallbacks (events (handle_get_stream msg w past s)) ≠ [] →
  result (handle_get_stream msg w past s) = Ok () ∧
  final (handle_get_stream msg w past s) = s ∧
  Forall (λ e, gui_or_cec e = false) (events (handle_get_stream msg w past s)).
Proof.
  unfold handle_get_stream, log, speak_dialog. rewrite bind_get_attr.
  destruct (display s) as [[|]|]; [|intros _; split_and!; by repeat constructor|done].
  steps.
  destruct (truthy (dict_get (data msg) "location" PNone)); cbn [negb];
    [|intros _; split_and!; by repeat constructor].
  steps.
  destruct (truthy (cams_get _ _)); cbn [negb];
    [|intros _; split_and!; by repeat constructor].
  rewrite !prepend_prepend. cbn [app events prepend].
  intros Hne. exfalso. apply Hne.
  apply fallbacks_silent. repeat (constructor; [done|]).
  apply show_stream_silent.
Qed.

(** C1, amended: the handlers guard exactly three failure conditions
    with a spoken fallback, and no others.  Every fallback dialog is one
    of display.not.available, stream.not_specified and stream.no_config.
    No operation other than setup (alone or within initialize) and the
    stream intent speaks a fallback at all, in any world.  Setup speaks
    display.not.available exactly when detection returned no adapter, and
    then marks the display unavailable.  The stream intent speaks
    display.not.available when the display flag is false,
    stream.not_specified when the request names no camera,
    stream.no_config when no URL is configured for the name, and nothing
    otherwise; and whenever it speaks a fallback it returns at once:
    state unchanged, no GUI call, no CEC call. *)
Theorem three_guards :
  (∀ (op : operation) (w : World) (past : list event) (s : skill),
     Forall (λ dialog, dialog ∈ ["display.not.available"; "stream.not_specified";
                                 "stream.no_config"])
       (fallbacks (events (run op w past s)))) ∧
  (∀ (op : operation) (w : World) (past : list event) (s : skill),
     guarded op = false →
     fallbacks (events (run op w past s)) = []) ∧
  (∀ (op : operation) (w : World) (past : list event) (s : skill),
     sets_up op = true →
     fallbacks (events (run op w past s)) =
       match detected (events (run op w past s)) with
       | Some [] => ["display.not.available"]
       | _ => []
       end ∧
     (detected (events (run op w past s)) = Some [] →
      display (final (run op w past s)) = Some false)) ∧
  (∀ (msg : message) (w : World) (past : list event) (s : skill),
     fallbacks (events (run (HandleGetStream msg) w past s)) =
       match display s with
       | None => []
       | Some false => ["display.not.available"]
       | Some true =>
           let cam_name := dict_get (data msg) "location" PNone in
           if negb (truthy cam_name) then ["stream.not_specified"]
           else if negb (truthy (cams_get (cams s) cam_name)) then ["stream.no_config"]
           else []
       end ∧
     (fallbacks (events (run (HandleGetStream msg) w past s)) ≠ [] →
      result (run (HandleGetStream msg) w past s) = Ok () ∧
      final (run (HandleGetStream msg) w past s) = s ∧
      Forall (λ e, gui_or_cec e = false)
        (events (run (HandleGetStream msg) w past s)))).
Proof.
  split_and!.
  - intros op w past s. apply fallbacks_known, (run_speaks_known op).
  - intros op w past s Hop. apply fallbacks_acknowledged, (run_unguarded op Hop).
  - intros op w past s Hop. destruct op; try done; cbn [run].
    + destruct (initialize_setup_cec w past s) as (pre & Hout & Hsilent & ->).
      cbn [events final prepend].
      rewrite (detected_after_outputs pre _ Hout).
      unfold fallbacks. rewrite spoken_app, (spoken_silent pre Hsilent).
      split; [apply setup_cec_fallbacks|apply setup_cec_unavailable].
    + split; [apply setup_cec_fallbacks|apply setup_cec_unavailable].
  - intros msg w past s.
    split; [apply handle_get_stream_fallbacks|apply handle_get_stream_guarded_exit].
Qed.

Lemma three_guards_witness :
  fallbacks (events (run (HandleStream (bus_message "garage") (PInt 60))
                       (tv_world "on") [] (ready front_door))) = [] ∧
  display (final (run Initialize no_adapter_world [] (constructed front_door))) =
    Some false ∧
  final (run (HandleGetStream (Message ∅)) (tv_world "on") [] (ready front_door)) =
    ready front_door.
Proof.
  destruct three_guards as (_ & Hother & Hsetup & Hstream).
  split_and!.
  - by apply Hother.
  - by apply (Hsetup Initialize).
  - apply Hstream. by vm_compute.
Defined.
